(** * cherab/mastu: equilibrium time-slice lookup, boundary-polygon
    sanitising and loader configuration checks

    A shallow embedding of
      - cherab/mastu/equilibrium/equilibrium.py
          (MASTEquilibrium, MASTUEquilibrium),
      - cherab/mastu/bolometry/detectors/load_detectors.py
          (load_default_bolometer_config),
      - examples/bolometry/sensitivities/rtm_sensitivities.py (main).

    Conventions of the embedding.
      - A float64 is an exact rational (Q): comparisons, subtraction, squares
        and absolute values are the exact ones; NaN, infinities and rounding
        are outside the model.
      - A one-dimensional numpy array is a list; a[i] on a list raises
        IndexError out of range, as numpy does.
      - A Python exception is a value of [exn]; a function that may raise
        returns a [result].
      - The data archive (pyuda) is a record of answers, [Archive]; code that
        queries it threads the log of the queries made so far. *)

From Stdlib Require Import ZArith QArith Qabs Lqa Lia String Ascii.
From stdpp Require Import base tactics option list sorting.

(** ** Exceptions and results *)

(** The messages of the ValueErrors the code raises. [OutsideRange lo hi] is
    'Requested time lies outside the range of the data: [lo, hi]s.'. *)
Inductive message : Type :=
  | OutsideRange (lo hi : Q)
  | InconsistentLength
  | LessThan2Points
  | ZeroSizeReduction
  | NotOneElement
  | StackShapeMismatch
  | UnpackMismatch
  | CameraIDNotRecognised
  | BadChamber
  | BadSXDLCamera
  | BadCoreCamera
  | UnsupportedCamera
  | MASTPulseTooLate
  | MASTUPulseTooEarly.

Inductive exn : Type :=
  | IndexError
  | ValueError (m : message)
  | TypeError
  | AttributeError
  | KeyError
  | UnboundLocalError
  | UDAException
  | ArchiveError (code : Z).

Inductive result (A : Type) : Type :=
  | Ok (a : A)
  | Raise (e : exn).
Arguments Ok {A} a.
Arguments Raise {A} e.

#[export] Instance result_ret : MRet result := @Ok.
#[export] Instance result_bind : MBind result := fun A B k r =>
  match r with
  | Ok a => k a
  | Raise e => Raise e
  end.

(** try: body / except IndexError: handler *)
Definition except_IndexError {A : Type} (body handler : result A) : result A :=
  match body with
  | Raise IndexError => handler
  | r => r
  end.

(** try: body / except AttributeError: handler *)
Definition except_AttributeError {A : Type} (body handler : result A) : result A :=
  match body with
  | Raise AttributeError => handler
  | r => r
  end.

(** ** The numpy operations the code uses *)

Definition Qltb (x y : Q) : bool := negb (Qle_bool y x).
Definition Qneb (x y : Q) : bool := negb (Qeq_bool x y).

(** a[i] for a non-negative index i *)
Definition getitem {A : Type} (a : list A) (i : nat) : result A :=
  match a !! i with
  | Some x => Ok x
  | None => Raise IndexError
  end.

Definition Qminb (x y : Q) : Q := if Qltb y x then y else x.
Definition Qmaxb (x y : Q) : Q := if Qltb x y then y else x.

(** a.min() and a.max(): the reduction of an empty array is a ValueError. *)
Definition np_min (a : list Q) : result Q :=
  match a with
  | [] => Raise (ValueError ZeroSizeReduction)
  | x :: xs => Ok (foldl Qminb x xs)
  end.

Definition np_max (a : list Q) : result Q :=
  match a with
  | [] => Raise (ValueError ZeroSizeReduction)
  | x :: xs => Ok (foldl Qmaxb x xs)
  end.

(** np.searchsorted(a, v, side="left"): numpy's binary search. The loop
      while (min_idx < max_idx) {
        mid_idx = min_idx + ((max_idx - min_idx) >> 1);
        if (a[mid_idx] < v) min_idx = mid_idx + 1; else max_idx = mid_idx; }
    run with a counter that bounds its iterations. *)
Fixpoint binsearch_left (fuel : nat) (a : list Q) (v : Q) (min_idx max_idx : nat) : nat :=
  match fuel with
  | O => min_idx
  | S fuel' =>
      if (min_idx <? max_idx)%nat then
        let mid_idx := (min_idx + (max_idx - min_idx) / 2)%nat in
        match a !! mid_idx with
        | Some mid_val =>
            if Qltb mid_val v
            then binsearch_left fuel' a v (mid_idx + 1) max_idx
            else binsearch_left fuel' a v min_idx mid_idx
        | None => min_idx
        end
      else min_idx
  end.

Definition searchsorted_left (a : list Q) (v : Q) : nat :=
  binsearch_left (length a) a v 0 (length a).

(** np.argmin: the index of the first minimum. *)
Fixpoint argmin_from (best : Q) (best_i i : nat) (a : list Q) : nat :=
  match a with
  | [] => best_i
  | x :: xs =>
      if Qltb x best then argmin_from x i (S i) xs
      else argmin_from best best_i (S i) xs
  end.

Definition np_argmin (a : list Q) : result nat :=
  match a with
  | [] => Raise (ValueError ZeroSizeReduction)
  | x :: xs => Ok (argmin_from x 0 1 xs)
  end.

(** a[mask] for a boolean mask *)
Fixpoint mask_select {A : Type} (a : list A) (mask : list bool) : list A :=
  match a, mask with
  | x :: a', b :: mask' =>
      if b then x :: mask_select a' mask' else mask_select a' mask'
  | _, _ => []
  end.

(** a[0:k]: a negative k counts from the end of the array. *)
Definition slice_to {A : Type} (a : list A) (k : Z) : list A :=
  if (k <? 0)%Z then take (Z.to_nat (Z.of_nat (length a) + k)) a
  else take (Z.to_nat k) a.

(** a.item(): the one element of an array of size one. *)
Definition item {A : Type} (a : list A) : result A :=
  match a with
  | [x] => Ok x
  | _ => Raise (ValueError NotOneElement)
  end.

(** A polygon as a 2xN array: the row of radii and the row of heights. *)
Definition array2xN : Type := list Q * list Q.

Definition vertex_eqb (p q : Q * Q) : bool :=
  Qeq_bool (fst p) (fst q) && Qeq_bool (snd p) (snd q).

(** A point that is not the given first vertex. *)
Definition differs_from (first p : Q * Q) : bool := negb (vertex_eqb p first).

(** poly.T of an Nx2 array of points *)
Definition transpose (points : list (Q * Q)) : array2xN :=
  (map fst points, map snd points).

(** np.stack((r, z), axis=0) *)
Definition np_stack (r z : list Q) : result array2xN :=
  if (length r =? length z)%nat then Ok (r, z)
  else Raise (ValueError StackShapeMismatch).

(** p[:, i] *)
Definition column (p : array2xN) (i : nat) : result (Q * Q) :=
  r ← getitem (fst p) i;
  z ← getitem (snd p) i;
  Ok (r, z).

(** p[:, -1] *)
Definition last_column (p : array2xN) : result (Q * Q) :=
  match length (fst p) with
  | O => Raise IndexError
  | S n => column p n
  end.

(** p[:, :-1] *)
Definition drop_last_column (p : array2xN) : array2xN :=
  (take (length (fst p) - 1) (fst p), take (length (snd p) - 1) (snd p)).

(** The columns of a 2xN array, as vertices. *)
Definition vertices (p : array2xN) : list (Q * Q) := zip (fst p) (snd p).

(** ** The data archive *)

(** A pulse argument as Python passes it: an int, a float or a string. *)
Inductive pulse : Type :=
  | PInt (n : Z)
  | PFloat (x : Q)
  | PStr (s : string).

(** A pyuda signal, by the views the code takes of it: [data] is .data of a
    one-dimensional signal (also after .squeeze()), [data2] the rows of .data
    of a two-dimensional one, [idata] .data of a signal of integers, [dim0]
    is .dims[0].data. *)
Record Signal : Type := {
  data : list Q;
  data2 : list (list Q);
  idata : list Z;
  dim0 : list Q
}.

(** What the archive answers: to pyuda.Client(), to client.get(name, pulse)
    and to client.geometry(path, shot, ...). *)
Record Archive : Type := {
  connect : result unit;
  get : string -> pulse -> result Signal;
  geometry : string -> pulse -> result unit
}.

Inductive event : Type :=
  | Connect
  | Get (name : string) (p : pulse)
  | Geometry (path : string) (p : pulse).

(** A computation that queries the archive: from the log so far to the log
    afterwards and the outcome. *)
Definition io (A : Type) : Type := list event -> list event * result A.

#[export] Instance io_ret : MRet io := fun A a log => (log, Ok a).
#[export] Instance io_bind : MBind io := fun A B k c log =>
  match c log with
  | (log', Ok a) => k a log'
  | (log', Raise e) => (log', Raise e)
  end.

Definition lift {A : Type} (r : result A) : io A := fun log => (log, r).
Definition run {A : Type} (c : io A) : list event * result A := c [].

Definition pyuda_Client (ar : Archive) : io unit :=
  fun log => (log ++ [Connect], connect ar).
Definition client_get (ar : Archive) (name : string) (p : pulse) : io Signal :=
  fun log => (log ++ [Get name p], get ar name p).
Definition client_geometry (ar : Archive) (path : string) (p : pulse) : io unit :=
  fun log => (log ++ [Geometry path p], geometry ar path p).

(** pulse >= n and pulse < n for an int n: a str against an int is a
    TypeError. *)
Definition pulse_ge (p : pulse) (n : Z) : result bool :=
  match p with
  | PInt m => Ok (n <=? m)%Z
  | PFloat x => Ok (Qle_bool (inject_Z n) x)
  | PStr _ => Raise TypeError
  end.

Definition pulse_lt (p : pulse) (n : Z) : result bool :=
  match p with
  | PInt m => Ok (m <? n)%Z
  | PFloat x => Ok (Qltb x (inject_Z n))
  | PStr _ => Raise TypeError
  end.

(** isinstance(pulse, int) *)
Definition isinstance_int (p : pulse) : bool :=
  match p with
  | PInt _ => true
  | _ => false
  end.

(** The time-slice handed to the caller. EFITEquilibrium takes, besides the
    fields below, the flux grid, the profiles and the axis, X-point and
    strike-point coordinates: those are archive arrays read at the selected
    index and handed on unchanged, and they are not part of this model. *)
Record EFITEquilibrium : Type := {
  efit_lcfs_polygon : array2xN;
  efit_limiter_polygon : array2xN;
  efit_time : Q
}.

(** ** class MASTEquilibrium *)

Module MASTEquilibrium.

(** The attributes of the object that the time-slice lookup reads. *)
Record t : Type := {
  time_slices : list Q;
  time_range : Q * Q;
  plasma_times : Signal;
  lcfs_poly_r : Signal;
  lcfs_poly_z : Signal;
  nlcfs : Signal;
  limiter_poly_r : Signal;
  limiter_poly_z : Signal;
  nlimiter : Signal
}.

(** __init__ (lines 36-107). The signals that the lookup below does not
    read are fetched, in the order of the source, and dropped; the list of
    X-point pairs (lines 82-85) is built from four of them and is not
    modelled. *)
Definition __init__ (ar : Archive) (pulse : pulse) : io t :=
  too_late ← lift (pulse_ge pulse 40000);
  if too_late : bool then lift (Raise (ValueError MASTPulseTooLate)) else
  _ ← pyuda_Client ar;
  psi ← client_get ar "efm_psi(r,z)" pulse;
  let time_slices := dim0 psi in
  _ ← client_get ar "efm_grid(r)" pulse;
  _ ← client_get ar "efm_grid(z)" pulse;
  _ ← client_get ar "efm_f(psi)_(c)" pulse;
  _ ← client_get ar "efm_q(psi)_(c)" pulse;
  _ ← client_get ar "efm_psi(r)" pulse;
  _ ← client_get ar "efm_psi_boundary" pulse;
  _ ← client_get ar "efm_psi_axis" pulse;
  _ ← client_get ar "efm_plasma_curr(C)" pulse;
  _ ← client_get ar "efm_bvac_val" pulse;
  _ ← client_get ar "efm_bvac_r" pulse;
  _ ← client_get ar "efm_magnetic_axis_r" pulse;
  _ ← client_get ar "efm_magnetic_axis_z" pulse;
  _ ← client_get ar "efm_xpoint1_r(c)" pulse;
  _ ← client_get ar "efm_xpoint1_z(c)" pulse;
  _ ← client_get ar "efm_xpoint2_r(c)" pulse;
  _ ← client_get ar "efm_xpoint2_z(c)" pulse;
  _ ← client_get ar "efm_minor_radius" pulse;
  lcfs_poly_r ← client_get ar "efm_lcfs(r)_(c)" pulse;
  lcfs_poly_z ← client_get ar "efm_lcfs(z)_(c)" pulse;
  nlcfs ← client_get ar "efm_lcfs(n)_(c)" pulse;
  limiter_poly_r ← client_get ar "efm_limiter(r)" pulse;
  limiter_poly_z ← client_get ar "efm_limiter(z)" pulse;
  nlimiter ← client_get ar "efm_limiter(n)" pulse;
  plasma_times ← client_get ar "efm_ip_times" pulse;
  tmin ← lift (np_min time_slices);
  tmax ← lift (np_max time_slices);
  mret {| time_slices := time_slices; time_range := (tmin, tmax);
          plasma_times := plasma_times;
          lcfs_poly_r := lcfs_poly_r; lcfs_poly_z := lcfs_poly_z;
          nlcfs := nlcfs;
          limiter_poly_r := limiter_poly_r; limiter_poly_z := limiter_poly_z;
          nlimiter := nlimiter |}.

(** _find_nearest (lines 200-211) *)
Definition _find_nearest (array : list Q) (value : Q) : result nat :=
  lo ← np_min array;
  if Qltb value lo then Raise IndexError else
  hi ← np_max array;
  if Qltb hi value then Raise IndexError else
  let index := searchsorted_left array value in
  x ← getitem array index;
  y ← getitem array (index + 1);
  if Qltb ((value - x) ^ 2) ((value - y) ^ 2) then Ok index
  else Ok (index + 1)%nat.

(** _process_efit_lcfs_polygon (lines 213-235): the result is the Nx2
    array poly_coords, a list of points (r, z). *)
Definition _process_efit_lcfs_polygon (poly_r poly_z : list Q)
  : result (list (Q * Q)) :=
  if negb (length poly_r =? length poly_z)%nat
  then Raise (ValueError InconsistentLength) else
  let n := length poly_r in
  if (n <? 2)%nat then Raise (ValueError LessThan2Points) else
  r0 ← getitem poly_r 0;
  z0 ← getitem poly_z 0;
  let unique :=
    zip_with orb (map (fun r => Qneb r r0) poly_r)
                 (map (fun z => Qneb z z0) poly_z) in
  let unique := <[0%nat := true]> unique in
  let poly_r := mask_select poly_r unique in
  let poly_z := mask_select poly_z unique in
  Ok (zip poly_r poly_z).

(** time (lines 109-198). The reads of the other archive arrays at index
    and plasma_index (lines 128-151, 183-193) and the two print calls are
    left out: see [EFITEquilibrium]. *)
Definition time (self : t) (time : Q) : result EFITEquilibrium :=
  found ← except_IndexError
    (index ← _find_nearest (time_slices self) time;
     plasma_index ← _find_nearest (data (plasma_times self)) time;
     Ok (index, plasma_index))
    (Raise (ValueError (OutsideRange (fst (time_range self))
                                     (snd (time_range self)))));
  let index := fst found in
  let plasma_index := snd found in
  time ← getitem (time_slices self) index;
  lcfs_r ← getitem (data2 (lcfs_poly_r self)) plasma_index;
  lcfs_z ← getitem (data2 (lcfs_poly_z self)) plasma_index;
  lcfs_points ← getitem (idata (nlcfs self)) plasma_index;
  let lcfs_r := slice_to lcfs_r lcfs_points in
  let lcfs_z := slice_to lcfs_z lcfs_points in
  lcfs_polygon ← _process_efit_lcfs_polygon lcfs_r lcfs_z;
  let lcfs_polygon := transpose lcfs_polygon in
  let limiter_r := data (limiter_poly_r self) in
  let limiter_z := data (limiter_poly_z self) in
  limiter_points ← item (idata (nlimiter self));
  let limiter_r := slice_to limiter_r limiter_points in
  let limiter_z := slice_to limiter_z limiter_points in
  limiter_polygon ← _process_efit_lcfs_polygon limiter_r limiter_z;
  let limiter_polygon := transpose limiter_polygon in
  Ok {| efit_lcfs_polygon := lcfs_polygon;
        efit_limiter_polygon := limiter_polygon;
        efit_time := time |}.

End MASTEquilibrium.

(** ** class MASTUEquilibrium *)

Module MASTUEquilibrium.

Record t : Type := {
  time_slices : list Q;
  time_range : Q * Q;
  lcfs_poly_r : Signal;
  lcfs_poly_z : Signal;
  limiter_poly_r : Signal;
  limiter_poly_z : Signal
}.

(** __init__ (lines 245-313). As above, the signals that the lookup does not
    read are fetched and dropped; the loop that builds the X points and the
    strike points (lines 294-302) is not modelled. *)
Definition __init__ (ar : Archive) (pulse : pulse) : io t :=
  too_early ←
    (if isinstance_int pulse then lift (pulse_lt pulse 40000) else mret false);
  if too_early : bool then lift (Raise (ValueError MASTUPulseTooEarly)) else
  _ ← pyuda_Client ar;
  psi ← client_get ar "/epm/output/profiles2D/poloidalFlux" pulse;
  let time_slices := dim0 psi in
  tmin ← lift (np_min time_slices);
  tmax ← lift (np_max time_slices);
  _ ← client_get ar "/epm/output/profiles2D/r" pulse;
  _ ← client_get ar "/epm/output/profiles2D/z" pulse;
  _ ← client_get ar "/epm/output/fluxFunctionProfiles/ffPrime" pulse;
  _ ← client_get ar "/epm/output/fluxFunctionProfiles/q" pulse;
  _ ← client_get ar "/epm/output/fluxFunctionProfiles/poloidalFlux" pulse;
  _ ← client_get ar "/epm/output/globalParameters/psiBoundary" pulse;
  _ ← client_get ar "/epm/output/globalParameters/psiAxis" pulse;
  _ ← client_get ar "/epm/output/globalParameters/plasmaCurrent" pulse;
  _ ← client_get ar "/epm/output/globalParameters/bvacRmag" pulse;
  _ ← client_get ar "/epm/output/globalParameters/magneticAxis/R" pulse;
  _ ← client_get ar "/epm/output/globalParameters/magneticAxis/Z" pulse;
  _ ← client_get ar "/epm/output/separatrixGeometry/xpointCount" pulse;
  _ ← client_get ar "/epm/output/separatrixGeometry/xpointR" pulse;
  _ ← client_get ar "/epm/output/separatrixGeometry/xpointZ" pulse;
  _ ← client_get ar "/epm/output/separatrixGeometry/strikepointR" pulse;
  _ ← client_get ar "/epm/output/separatrixGeometry/strikepointZ" pulse;
  _ ← client_get ar "/epm/output/separatrixGeometry/minorRadius" pulse;
  lcfs_poly_r ← client_get ar "/epm/output/separatrixGeometry/rBoundary" pulse;
  lcfs_poly_z ← client_get ar "/epm/output/separatrixGeometry/zBoundary" pulse;
  limiter_poly_r ← client_get ar "/epm/input/limiter/rValues" pulse;
  limiter_poly_z ← client_get ar "/epm/input/limiter/zValues" pulse;
  mret {| time_slices := time_slices; time_range := (tmin, tmax);
          lcfs_poly_r := lcfs_poly_r; lcfs_poly_z := lcfs_poly_z;
          limiter_poly_r := limiter_poly_r;
          limiter_poly_z := limiter_poly_z |}.

(** _find_nearest (lines 315-326) *)
Definition _find_nearest (array : list Q) (value : Q) : result nat :=
  lo ← np_min array;
  if Qltb value lo then Raise IndexError else
  hi ← np_max array;
  if Qltb hi value then Raise IndexError else
  let index := searchsorted_left array value in
  x ← getitem array index;
  y ← getitem array (index + 1);
  if Qltb ((value - x) ^ 2) ((value - y) ^ 2) then Ok index
  else Ok (index + 1)%nat.

(** Lines 367-370, and again 374-377: stack the two coordinate rows and
    drop the last column when it equals the first. *)
Definition open_polygon (poly_r poly_z : list Q) : result array2xN :=
  polygon ← np_stack poly_r poly_z;
  first ← column polygon 0;
  last ← last_column polygon;
  if vertex_eqb first last then Ok (drop_last_column polygon)
  else Ok polygon.

(** time (lines 328-388). The reads of the other archive arrays at index
    (lines 347-362, 379-383) are left out: see [EFITEquilibrium]. *)
Definition time (self : t) (time : Q) : result EFITEquilibrium :=
  tmin ← np_min (time_slices self);
  tmax ← np_max (time_slices self);
  if negb (Qle_bool tmin time && Qle_bool time tmax)
  then Raise (ValueError (OutsideRange tmin tmax)) else
  index ← np_argmin (map (fun s => Qabs (s - time)) (time_slices self));
  time ← getitem (time_slices self) index;
  lcfs_r ← getitem (data2 (lcfs_poly_r self)) index;
  lcfs_z ← getitem (data2 (lcfs_poly_z self)) index;
  lcfs_polygon ← open_polygon lcfs_r lcfs_z;
  let limiter_r := data (limiter_poly_r self) in
  let limiter_z := data (limiter_poly_z self) in
  limiter_polygon ← open_polygon limiter_r limiter_z;
  Ok {| efit_lcfs_polygon := lcfs_polygon;
        efit_limiter_polygon := limiter_polygon;
        efit_time := time |}.

End MASTUEquilibrium.

(** ** The string operations the loaders use *)

(** str.isspace on an ASCII character *)
Definition is_space (c : ascii) : bool :=
  let n := nat_of_ascii c in
  (n =? 32)%nat || ((9 <=? n)%nat && (n <=? 13)%nat)
  || ((28 <=? n)%nat && (n <=? 31)%nat).

Fixpoint lstrip (s : string) : string :=
  match s with
  | EmptyString => EmptyString
  | String c s' => if is_space c then lstrip s' else s
  end.

Fixpoint rstrip (s : string) : string :=
  match s with
  | EmptyString => EmptyString
  | String c s' =>
      match rstrip s' with
      | EmptyString => if is_space c then EmptyString else String c EmptyString
      | kept => String c kept
      end
  end.

(** s.strip() *)
Definition strip (s : string) : string := rstrip (lstrip s).

Definition lower_char (c : ascii) : ascii :=
  let n := nat_of_ascii c in
  if ((65 <=? n)%nat && (n <=? 90)%nat) then ascii_of_nat (n + 32) else c.

(** s.lower(), on ASCII *)
Fixpoint lower (s : string) : string :=
  match s with
  | EmptyString => EmptyString
  | String c s' => String (lower_char c) (lower s')
  end.

(** s.split(sep) for a separator of one character *)
Fixpoint split (sep : ascii) (s : string) : list string :=
  match s with
  | EmptyString => [EmptyString]
  | String c s' =>
      if Ascii.eqb c sep then EmptyString :: split sep s'
      else match split sep s' with
           | part :: parts => String c part :: parts
           | [] => [String c EmptyString]
           end
  end.

(** s in (a, b, ...) *)
Definition string_in (s : string) (choices : list string) : bool :=
  existsb (String.eqb s) choices.

(** s[:k] *)
Definition string_slice_to (s : string) (k : Z) : string :=
  string_of_list_ascii (slice_to (list_ascii_of_string s) k).

(** a, b = parts *)
Definition unpack2 {A : Type} (parts : list A) : result (A * A) :=
  match parts with
  | [a; b] => Ok (a, b)
  | _ => Raise (ValueError UnpackMismatch)
  end.

(** try: body / except KeyError: handler *)
Definition except_KeyError {A : Type} (body handler : result A) : result A :=
  match body with
  | Raise KeyError => handler
  | r => r
  end.

(** ** load_default_bolometer_config (load_detectors.py, lines 29-63) *)

Inductive mesh_geometry : Type :=
  | SXD_BOLOMETERS (i : nat)
  | CORE_BOLOMETERS (i : nat).

(** What is settled by line 63: the mesh of the camera and its name. The
    slits and foils are then built from the geometry data by constructors
    of the ray-tracing library, which this model does not follow. *)
Record camera_config : Type := {
  mesh_geometry_data : mesh_geometry;
  camera_id : string
}.

Definition load_default_bolometer_config (ar : Archive) (bolometer_id : string)
    (shot : pulse) : io camera_config :=
  parts ← lift (except_KeyError
                  (unpack2 (map strip (split "-" bolometer_id)))
                  (Raise (ValueError CameraIDNotRecognised)));
  let chamber := fst parts in
  let camera_name := snd parts in
  if negb (string_in (lower chamber) ["sxdl"; "core"]%string)
  then lift (Raise (ValueError BadChamber)) else
  _ ← pyuda_Client ar;
  _ ← (fun log =>
         let '(log', bolometers) :=
           client_geometry ar ("/bolo/" ++ lower chamber) shot log in
         (log', except_AttributeError bolometers (Raise UDAException)));
  mesh ← lift (
    if String.eqb (lower chamber) "sxdl" then
      if String.eqb (lower camera_name) "outer" then Ok (SXD_BOLOMETERS 0)
      else if String.eqb (lower camera_name) "upper" then Ok (SXD_BOLOMETERS 1)
      else Raise (ValueError BadSXDLCamera)
    else if String.eqb (lower chamber) "core" then
      if String.eqb (lower camera_name) "poloidal" then Ok (CORE_BOLOMETERS 0)
      else if String.eqb (lower camera_name) "tangential"
      then Ok (CORE_BOLOMETERS 1)
      else Raise (ValueError BadCoreCamera)
    else Raise UnboundLocalError);
  mret {| mesh_geometry_data := mesh;
          camera_id := "MAST-U " ++ chamber ++ " - " ++ camera_name
                       ++ " Bolometer" |}.

(** ** main (rtm_sensitivities.py, lines 138-170) *)

Inductive mesh_parts : Type :=
  | MASTU_FULL_MESH
  | MAST_FULL_MESH.

(** The arguments with which main calls calculate_and_save_sensitivities;
    camera_transform, when given, is the translation vector. *)
Record sensitivities_call : Type := {
  call_grid : string;
  call_camera : string;
  call_mesh_parts : mesh_parts;
  call_shift_p5 : bool;
  call_camera_transform : option (Q * Q * Q)
}.

Definition main (argv : list string) : result sensitivities_call :=
  camera ← getitem argv 1;
  if string_in camera ["Outer"; "Upper"]%string then
    Ok {| call_grid := "sxdl"; call_camera := camera;
          call_mesh_parts := MASTU_FULL_MESH; call_shift_p5 := false;
          call_camera_transform := None |}
  else if string_in camera ["Poloidal"; "Tangential"]%string then
    Ok {| call_grid := "core"; call_camera := camera;
          call_mesh_parts := MASTU_FULL_MESH; call_shift_p5 := true;
          call_camera_transform := None |}
  else if string_in camera ["PoloidalHighRes"; "TangentialHighRes"]%string then
    Ok {| call_grid := "core_high_res";
          call_camera := string_slice_to camera (-7);
          call_mesh_parts := MASTU_FULL_MESH; call_shift_p5 := true;
          call_camera_transform := None |}
  else if String.eqb camera "Poloidal-MAST" then
    Ok {| call_grid := "core"; call_camera := camera;
          call_mesh_parts := MAST_FULL_MESH; call_shift_p5 := false;
          call_camera_transform := Some (0, 1 # 10, 0)%Q |}
  else Raise (ValueError UnsupportedCamera).

(** ** The specification's reading of the lookup *)

Definition strictly_ascending (samples : list Q) : Prop :=
  StronglySorted Qlt samples.

(** The query lies within [min(samples), max(samples)]. *)
Definition in_range (samples : list Q) (query : Q) : Prop :=
  exists lo hi, np_min samples = Ok lo /\ np_max samples = Ok hi
                /\ (lo <= query)%Q /\ (query <= hi)%Q.

(** Index i holds a sample at least as close to the query as every other
    sample, and no later index holds one equally close. *)
Definition is_nearest_index (samples : list Q) (query : Q) (i : nat) : Prop :=
  exists s, samples !! i = Some s /\
    forall j s', samples !! j = Some s' ->
      (Qabs (query - s) <= Qabs (query - s'))%Q /\
      ((Qabs (query - s') == Qabs (query - s))%Q -> (j <= i)%nat).

(** The nearest-index rule in the words of the specification: the insertion
    point is the first position whose sample is not below the query; the
    squared distance to the sample there is compared with the one to the
    sample at the next index; the closer index is returned, the later one on
    a tie. When no sample follows the insertion point there is nothing to
    compare with and the insertion point itself is returned, so the rule
    gives an index for every query within [min(samples), max(samples)]; it
    gives none for a query above every sample. *)
Fixpoint insertion_point (samples : list Q) (query : Q) : nat :=
  match samples with
  | [] => 0
  | s :: rest =>
      if Qltb s query then S (insertion_point rest query) else 0
  end.

Definition squared_distance (query s : Q) : Q := ((query - s) * (query - s))%Q.

Definition nearest_index_rule (samples : list Q) (query : Q) : option nat :=
  let i := insertion_point samples query in
  here ← samples !! i;
  match samples !! S i with
  | Some next =>
      Some (match (squared_distance query here
                   ?= squared_distance query next)%Q with
            | Lt => i
            | Eq => S i
            | Gt => S i
            end)
  | None => Some i
  end.

Definition result_of_index (r : option nat) : result nat :=
  match r with
  | Some i => Ok i
  | None => Raise IndexError
  end.

(** i splits the array: the samples before it are below v, the others not. *)
Definition splits_at (a : list Q) (v : Q) (i : nat) : Prop :=
  (forall j x, (j < i)%nat -> a !! j = Some x -> (x < v)%Q) /\
  (forall j x, (i <= j)%nat -> a !! j = Some x -> (v <= x)%Q).

(** ** Sample data

    The sample times and the square of the specification's examples, and
    an archive that answers every query: each time-indexed signal holds the
    sample times as its time base and one copy of the given polygon per
    sample time. *)

Definition spec_samples : list Q := [0; 1 # 10; 2 # 10; 3 # 10]%Q.

Definition square_r : list Q := [0; 1; 1; 0; 0]%Q.
Definition square_z : list Q := [0; 0; 1; 1; 0]%Q.

Definition sample_signal (times poly_r poly_z : list Q) (name : string) : Signal :=
  let radial :=
    string_in name ["efm_lcfs(r)_(c)"; "efm_limiter(r)";
                    "/epm/output/separatrixGeometry/rBoundary";
                    "/epm/input/limiter/rValues"]%string in
  let vertical :=
    string_in name ["efm_lcfs(z)_(c)"; "efm_limiter(z)";
                    "/epm/output/separatrixGeometry/zBoundary";
                    "/epm/input/limiter/zValues"]%string in
  let coords := if radial then poly_r else poly_z in
  {| data := if radial || vertical then coords else times;
     data2 := map (fun _ => coords) times;
     idata := if String.eqb name "efm_limiter(n)"
              then [Z.of_nat (length poly_r)]
              else map (fun _ => Z.of_nat (length poly_r)) times;
     dim0 := times |}.

Definition sample_archive (times poly_r poly_z : list Q) : Archive :=
  {| connect := Ok tt;
     get := fun name _ => Ok (sample_signal times poly_r poly_z name);
     geometry := fun _ _ => Ok tt |}.

(** An archive that answers no query: the geometry it returns has no .data
    attribute. *)
Definition failing_archive : Archive :=
  {| connect := Ok tt;
     get := fun _ _ => Raise (ArchiveError 1);
     geometry := fun _ _ => Raise AttributeError |}.

(** The archive of the closed unit square, sampled at times 0, 2 and 4. *)
Definition square_archive : Archive :=
  sample_archive [0; 2; 4]%Q square_r square_z.

(** ** The archive queries of the constructors, in the order of the source *)

Definition MAST_signal_names : list string :=
  ["efm_psi(r,z)"; "efm_grid(r)"; "efm_grid(z)"; "efm_f(psi)_(c)";
   "efm_q(psi)_(c)"; "efm_psi(r)"; "efm_psi_boundary"; "efm_psi_axis";
   "efm_plasma_curr(C)"; "efm_bvac_val"; "efm_bvac_r"; "efm_magnetic_axis_r";
   "efm_magnetic_axis_z"; "efm_xpoint1_r(c)"; "efm_xpoint1_z(c)";
   "efm_xpoint2_r(c)"; "efm_xpoint2_z(c)"; "efm_minor_radius";
   "efm_lcfs(r)_(c)"; "efm_lcfs(z)_(c)"; "efm_lcfs(n)_(c)"; "efm_limiter(r)";
   "efm_limiter(z)"; "efm_limiter(n)"; "efm_ip_times"]%string.

Definition MASTU_signal_names : list string :=
  ["/epm/output/profiles2D/poloidalFlux"; "/epm/output/profiles2D/r";
   "/epm/output/profiles2D/z"; "/epm/output/fluxFunctionProfiles/ffPrime";
   "/epm/output/fluxFunctionProfiles/q";
   "/epm/output/fluxFunctionProfiles/poloidalFlux";
   "/epm/output/globalParameters/psiBoundary";
   "/epm/output/globalParameters/psiAxis";
   "/epm/output/globalParameters/plasmaCurrent";
   "/epm/output/globalParameters/bvacRmag";
   "/epm/output/globalParameters/magneticAxis/R";
   "/epm/output/globalParameters/magneticAxis/Z";
   "/epm/output/separatrixGeometry/xpointCount";
   "/epm/output/separatrixGeometry/xpointR";
   "/epm/output/separatrixGeometry/xpointZ";
   "/epm/output/separatrixGeometry/strikepointR";
   "/epm/output/separatrixGeometry/strikepointZ";
   "/epm/output/separatrixGeometry/minorRadius";
   "/epm/output/separatrixGeometry/rBoundary";
   "/epm/output/separatrixGeometry/zBoundary";
   "/epm/input/limiter/rValues"; "/epm/input/limiter/zValues"]%string.

(** The log of a constructor run in which every query was made. *)
Definition full_log (names : list string) (p : pulse) : list event :=
  Connect :: map (fun name => Get name p) names.

(** ** load_default_bolometer_config, lines 66-117: slits and foils *)

(** s.split(): the words of s, separated by runs of white space *)
Fixpoint words (s : string) : list string :=
  match s with
  | EmptyString => []
  | String c s' =>
      if is_space c then words s'
      else match s' with
           | EmptyString => [String c EmptyString]
           | String c' _ =>
               if is_space c' then String c EmptyString :: words s'
               else match words s' with
                    | w :: ws => String c w :: ws
                    | [] => [String c EmptyString]
                    end
           end
  end.

(** id.split('-')[2].split()[0]: the camera named in the ID of a slit or
    foil, 'MAST-U <chamber> - <camera> Slit <N>' or '... CH<N>'. *)
Definition id_camera (id : string) : result string :=
  part ← getitem (split "-" id) 2;
  getitem (words part) 0.

(** A UDA structure with components x, y and z. *)
Record uda_struct : Type := { uda_x : Q; uda_y : Q; uda_z : Q }.

Record Point3D : Type := { point_x : Q; point_y : Q; point_z : Q }.
Record Vector3D : Type := { vector_x : Q; vector_y : Q; vector_z : Q }.

(** uda_to_point (lines 120-122) *)
Definition uda_to_point (struct : uda_struct) : Point3D :=
  {| point_x := uda_x struct; point_y := uda_y struct;
     point_z := uda_z struct |}.

(** uda_to_vector (lines 125-127) *)
Definition uda_to_vector (struct : uda_struct) : Vector3D :=
  {| vector_x := uda_x struct; vector_y := uda_y struct;
     vector_z := uda_z struct |}.

(** A slit and a foil of the geometry data; a slit may lack the attribute
    curvature_radius. *)
Record uda_slit : Type := {
  slit_id : string;
  slit_basis_1 : uda_struct;
  slit_basis_2 : uda_struct;
  slit_centre_point : uda_struct;
  slit_width : Q;
  slit_height : Q;
  slit_curvature_radius : option Q
}.

Record uda_foil : Type := {
  foil_id : string;
  foil_basis_1 : uda_struct;
  foil_basis_2 : uda_struct;
  foil_centre_point : uda_struct;
  foil_width : Q;
  foil_height : Q;
  foil_curvature_radius : Q;
  foil_slit_id : string
}.

(** The geometry data, by the four keys the code reads. *)
Record bolometer_geometry : Type := {
  slits_data : option (list uda_slit);
  data_slits_data : option (list uda_slit);
  foils_data : option (list uda_foil);
  data_foils_data : option (list uda_foil)
}.

(** The arguments of BolometerSlit(...) and BolometerFoil(...). *)
Record BolometerSlit : Type := {
  bs_basis_x : Vector3D;
  bs_basis_y : Vector3D;
  bs_centre_point : Point3D;
  bs_dx : Q;
  bs_dy : Q;
  bs_curvature_radius : Q;
  bs_slit_id : string
}.

Record BolometerFoil : Type := {
  bf_basis_x : Vector3D;
  bf_basis_y : Vector3D;
  bf_centre_point : Point3D;
  bf_dx : Q;
  bf_dy : Q;
  bf_curvature_radius : Q;
  bf_detector_id : string;
  bf_slit : BolometerSlit
}.

(** d[key] on the geometry data *)
Definition getkey {A : Type} (entry : option A) : result A :=
  match entry with
  | Some v => Ok v
  | None => Raise KeyError
  end.

(** The dict slit_objects: the entry found for a key is the latest one set. *)
Definition slit_dict : Type := list (string * BolometerSlit).

Definition dict_set (key : string) (v : BolometerSlit) (d : slit_dict)
  : slit_dict := (key, v) :: d.

Fixpoint dict_getitem (d : slit_dict) (key : string) : result BolometerSlit :=
  match d with
  | [] => Raise KeyError
  | (k, v) :: d' => if String.eqb k key then Ok v else dict_getitem d' key
  end.

(** The loop over the slits (lines 73-92) *)
Fixpoint collect_slits (camera_name : string) (slits : list uda_slit)
    (slit_objects : slit_dict) : result slit_dict :=
  match slits with
  | [] => Ok slit_objects
  | slit :: rest =>
      let curvature_radius :=
        match slit_curvature_radius slit with
        | Some radius => radius
        | None => 0%Q
        end in
      slit_camera ← id_camera (slit_id slit);
      if negb (String.eqb slit_camera camera_name)
      then collect_slits camera_name rest slit_objects
      else collect_slits camera_name rest
             (dict_set (slit_id slit)
                {| bs_basis_x := uda_to_vector (slit_basis_1 slit);
                   bs_basis_y := uda_to_vector (slit_basis_2 slit);
                   bs_centre_point := uda_to_point (slit_centre_point slit);
                   bs_dx := slit_width slit;
                   bs_dy := slit_height slit;
                   bs_curvature_radius := curvature_radius;
                   bs_slit_id := slit_id slit |}
                slit_objects)
  end.

(** The loop over the foils (lines 98-115); add_foil_detector appends the
    foil to the detectors of the camera. *)
Fixpoint collect_foils (camera_name : string) (foils : list uda_foil)
    (slit_objects : slit_dict) (detectors : list BolometerFoil)
  : result (list BolometerFoil) :=
  match foils with
  | [] => Ok detectors
  | foil :: rest =>
      foil_camera ← id_camera (foil_id foil);
      if negb (String.eqb foil_camera camera_name)
      then collect_foils camera_name rest slit_objects detectors
      else
        slit ← dict_getitem slit_objects (foil_slit_id foil);
        collect_foils camera_name rest slit_objects
          (detectors ++
             [{| bf_basis_x := uda_to_vector (foil_basis_1 foil);
                 bf_basis_y := uda_to_vector (foil_basis_2 foil);
                 bf_centre_point := uda_to_point (foil_centre_point foil);
                 bf_dx := foil_width foil;
                 bf_dy := foil_height foil;
                 bf_curvature_radius := foil_curvature_radius foil;
                 bf_detector_id := foil_id foil;
                 bf_slit := slit |}])
  end.

(** Lines 66-115: the foil detectors of the camera, from the geometry data
    that the archive returned. *)
Definition camera_detectors (camera_name : string)
    (bolometers : bolometer_geometry) : result (list BolometerFoil) :=
  slits ← except_KeyError (getkey (slits_data bolometers))
                          (getkey (data_slits_data bolometers));
  slit_objects ← collect_slits camera_name slits [];
  foils ← except_KeyError (getkey (foils_data bolometers))
                          (getkey (data_foils_data bolometers));
  collect_foils camera_name foils slit_objects [].

(** The ID names the camera. *)
Definition in_camera (camera_name id : string) : bool :=
  match id_camera id with
  | Ok camera => String.eqb camera camera_name
  | Raise _ => false
  end.

(** No character of s is c. *)
Fixpoint free_of (c : ascii) (s : string) : bool :=
  match s with
  | EmptyString => true
  | String c' s' => negb (Ascii.eqb c' c) && free_of c s'
  end.

(** No character of s is white space. *)
Fixpoint no_space (s : string) : bool :=
  match s with
  | EmptyString => true
  | String c s' => negb (is_space c) && no_space s'
  end.

(** Every slit of the dict is filed under its own ID, which names the
    camera. *)
Definition slits_of_camera (camera_name : string) (d : slit_dict) : Prop :=
  Forall (fun entry => bs_slit_id (snd entry) = fst entry /\
                       in_camera camera_name (fst entry) = true) d.

(** What a detector of the camera has of the foil it was made from. *)
Definition detector_of (camera_name : string) (foil : uda_foil)
    (detector : BolometerFoil) : Prop :=
  bf_detector_id detector = foil_id foil /\
  bs_slit_id (bf_slit detector) = foil_slit_id foil /\
  in_camera camera_name (foil_slit_id foil) = true /\
  bf_centre_point detector = uda_to_point (foil_centre_point foil) /\
  bf_dx detector = foil_width foil /\ bf_dy detector = foil_height foil.

(** Geometry data of a chamber with two cameras: one slit each, two foils
    behind the first slit and one behind the second. *)
Definition origin : uda_struct := {| uda_x := 0; uda_y := 0; uda_z := 0 |}.

Definition sample_slit (id : string) : uda_slit :=
  {| slit_id := id; slit_basis_1 := origin; slit_basis_2 := origin;
     slit_centre_point := origin; slit_width := 1; slit_height := 2;
     slit_curvature_radius := None |}.

Definition sample_foil (id slit : string) : uda_foil :=
  {| foil_id := id; foil_basis_1 := origin; foil_basis_2 := origin;
     foil_centre_point := origin; foil_width := 1; foil_height := 2;
     foil_curvature_radius := 0; foil_slit_id := slit |}.

Definition sample_geometry : bolometer_geometry :=
  {| slits_data := Some [sample_slit "MAST-U SXDL - Outer Slit 1";
                         sample_slit "MAST-U SXDL - Upper Slit 1"];
     data_slits_data := None;
     foils_data := Some [sample_foil "MAST-U SXDL - Outer CH1"
                                     "MAST-U SXDL - Outer Slit 1";
                         sample_foil "MAST-U SXDL - Upper CH1"
                                     "MAST-U SXDL - Upper Slit 1";
                         sample_foil "MAST-U SXDL - Outer CH2"
                                     "MAST-U SXDL - Outer Slit 1"];
     data_foils_data := None |}.


(** ** The batch script and the grid loader: outcomes *)

(** Besides the exceptions of [exn] these functions raise ValueErrors with
    messages of their own, kept here as text. *)
Inductive script_exn : Type :=
  | Exn (e : exn)
  | ValueErrorText (text : string).

Inductive outcome (A : Type) : Type :=
  | Done (a : A)
  | Failed (e : script_exn).
Arguments Done {A} a.
Arguments Failed {A} e.

#[export] Instance outcome_ret : MRet outcome := @Done.
#[export] Instance outcome_bind : MBind outcome := fun A B k r =>
  match r with
  | Done a => k a
  | Failed e => Failed e
  end.

Definition of_result {A : Type} (r : result A) : outcome A :=
  match r with
  | Ok a => Done a
  | Raise e => Failed (Exn e)
  end.

(** ** load_vessel_world (rtm_sensitivities.py, lines 34-71) *)

(** os.path.split(path)[1]: what follows the last '/' *)
Definition path_tail (path : string) : string :=
  match last (split "/" path) with
  | Some tail => tail
  | None => EmptyString
  end.

(** needle in s, for a needle that is not empty *)
Fixpoint contains (needle s : string) : bool :=
  String.prefix needle s ||
  match s with
  | EmptyString => false
  | String _ s' => contains needle s'
  end.

(** What is added to the world: Mesh.from_file with its transform (the
    shift along z, when there is one), import_obj, which is given no
    transform, and the cylinder. *)
Inductive primitive : Type :=
  | MeshFromFile (path : string) (z_shift : option Q) (name : string)
  | ImportObj (path : string) (name : string)
  | Cylinder (radius height z_shift : Q) (name : string).

(** The body of the loop, for one mesh part. *)
Definition import_mesh_part (path : string) (shift_p5 : bool)
  : outcome primitive :=
  let filename := path_tail path in
  parts ← of_result (unpack2 (split "." filename));
  let name := fst parts in
  let ext := snd parts in
  let transform :=
    if contains "P5_" path && shift_p5 then Some (- (485 # 100000))%Q
    else None in
  if String.eqb (lower ext) "rsm" then Done (MeshFromFile path transform name)
  else if String.eqb (lower ext) "obj" then Done (ImportObj path name)
  else Failed (ValueErrorText "Only RSM and OBJ meshes are supported.").

Fixpoint import_mesh_parts {M : Type} (mesh_parts : list (string * M))
    (shift_p5 : bool) (world : list primitive) : outcome (list primitive) :=
  match mesh_parts with
  | [] => Done world
  | (path, _) :: rest =>
      mesh ← import_mesh_part path shift_p5;
      import_mesh_parts rest shift_p5 (world ++ [mesh])
  end.

Definition load_vessel_world {M : Type} (mesh_parts : list (string * M))
    (shift_p5 : bool) : outcome (list primitive) :=
  world ← import_mesh_parts mesh_parts shift_p5 [];
  let height := 6%Q in
  let radius := (1 # 10)%Q in
  Done (world ++ [Cylinder radius height (- height / 2) "Blocking Cylinder"]).

(** The file name of the part has exactly one '.', followed by rsm or obj
    in any case. *)
Definition supported_mesh (path : string) : bool :=
  match split "." (path_tail path) with
  | [_; ext] => String.eqb (lower ext) "rsm" || String.eqb (lower ext) "obj"
  | _ => false
  end.

Definition primitive_path (p : primitive) : option string :=
  match p with
  | MeshFromFile path _ _ => Some path
  | ImportObj path _ => Some path
  | Cylinder _ _ _ _ => None
  end.

(** A mesh is moved only by the P5 shift, asked for and named in the path. *)
Definition shift_justified (shift_p5 : bool) (mesh : primitive) : Prop :=
  match mesh with
  | MeshFromFile path (Some dz) _ =>
      shift_p5 = true /\ contains "P5_" path = true /\ dz = (- (485 # 100000))%Q
  | _ => True
  end.

(** ** calculate_and_save_sensitivities (lines 74-135): names and grid *)

Definition replace_char (old new : ascii) (s : string) : string :=
  string_of_list_ascii
    (map (fun c => if Ascii.eqb c old then new else c)
         (list_ascii_of_string s)).

(** Lines 91-101: the identifier handed to load_default_bolometer_config and
    the name of the file written. *)
Definition sensitivities_names (grid_name camera : string)
  : outcome (string * string) :=
  cam_nometa ← of_result (getitem (split "-" camera) 0);
  bolo_name ←
    (if String.eqb grid_name "sxdl" then Done ("SXDL - " ++ cam_nometa)%string
     else if string_in grid_name ["core"; "core_high_res"]%string
     then Done ("CORE - " ++ cam_nometa)%string
     else Failed (ValueErrorText
            "Only 'sxd', 'core' and 'core_high_res' grids supported."));
  let file_name :=
    ("rtm_" ++ replace_char "_" "-" grid_name ++ "_" ++ lower camera
     ++ "_bolo.npy")%string in
  Done (bolo_name, file_name).

(** Lines 107-123: the ray-transfer cylinder of the grid. *)
Record ray_transfer_cylinder : Type := {
  radius_inner : Q;
  radius_outer : Q;
  cylinder_height : Q;
  cylinder_z : Q;
  n_radius : nat;
  n_height : nat
}.

Definition ray_transfer_grid (grid_name : string)
  : outcome ray_transfer_cylinder :=
  if String.eqb grid_name "sxdl" then
    Done {| radius_inner := 1 # 2; radius_outer := 2;
            cylinder_height := 6 # 10; cylinder_z := - (21 # 10);
            n_radius := 150; n_height := 60 |}
  else if String.eqb grid_name "core" then
    Done {| radius_inner := 1 # 4; radius_outer := 15431 # 10000;
            cylinder_height := 31 # 10; cylinder_z := - (1549 # 1000);
            n_radius := 30; n_height := 70 |}
  else if String.eqb grid_name "core_high_res" then
    Done {| radius_inner := 1 # 4; radius_outer := 15431 # 10000;
            cylinder_height := 31 # 10; cylinder_z := - (1549 # 1000);
            n_radius := 750; n_height := 1550 |}
  else Failed (ValueErrorText ("Invalid grid name " ++ grid_name)).

(** ** load_voxel_grids.py *)

(** A value of the pickled mapping: the list of voxels, each a list of
    vertices, each a list of coordinates; or another entry, kept opaque. *)
Inductive pickled : Type :=
  | PVoxels (voxels : list (list (list Q)))
  | PExtra (payload : Z).

(** The pickled mapping; the entry found for a key is the first one. *)
Definition pickle_dict : Type := list (string * pickled).

(** d[key] *)
Fixpoint pickle_getitem (d : pickle_dict) (key : string) : result pickled :=
  match d with
  | [] => Raise KeyError
  | (k, v) :: d' => if String.eqb k key then Ok v else pickle_getitem d' key
  end.

(** d without key *)
Fixpoint pickle_remove (d : pickle_dict) (key : string) : pickle_dict :=
  match d with
  | [] => []
  | (k, v) :: d' =>
      if String.eqb k key then pickle_remove d' key
      else (k, v) :: pickle_remove d' key
  end.

(** d.pop(key): the dict is changed in place and the value returned; the
    changed dict is returned beside it here. *)
Definition pickle_pop (d : pickle_dict) (key : string)
  : result (pickled * pickle_dict) :=
  v ← pickle_getitem d key;
  Ok (v, pickle_remove d key).

Record Point2D : Type := { point2d_x : Q; point2d_y : Q }.

(** Point2D( *vertex ): a vertex must have two coordinates. *)
Definition point2d_of (vertex : list Q) : result Point2D :=
  match vertex with
  | [x; y] => Ok {| point2d_x := x; point2d_y := y |}
  | _ => Raise TypeError
  end.

Fixpoint result_map {A B : Type} (f : A -> result B) (l : list A)
  : result (list B) :=
  match l with
  | [] => Ok []
  | a :: l' => b ← f a; bs ← result_map f l'; Ok (b :: bs)
  end.

(** os.path.join(directory, name) *)
Definition os_path_join (directory name : string) : string :=
  if String.prefix "/" name then name
  else if String.eqb directory "" then name
  else match last (list_ascii_of_string directory) with
       | Some "/"%char => (directory ++ name)%string
       | _ => (directory ++ "/" ++ name)%string
       end.

(** The file read: grid_file, or by default
    <directory>/<system>_rectilinear_grid.pickle. *)
Definition grid_path (directory system : string) (grid_file : option string)
  : string :=
  match grid_file with
  | Some file => file
  | None => os_path_join directory (system ++ "_rectilinear_grid.pickle")
  end.

(** grid_voxels[voxel_range] for voxel_range = slice(start, stop) with
    bounds that are not negative. *)
Definition slice_range {A : Type} (l : list A) (range : nat * nat) : list A :=
  drop (fst range) (take (snd range) l).

(** load_standard_voxel_grid (lines 9-51); [fs] is what open and pickle.load
    give for a path, [directory] the directory of the module. The result is
    voxel_list, from which the ToroidalVoxelGrid is made. *)
Definition load_standard_voxel_grid (fs : string -> outcome pickle_dict)
    (directory system : string) (voxel_range : option (nat * nat))
    (grid_file : option string) : outcome (list (list Point2D)) :=
  let grid_file := grid_path directory system grid_file in
  grid_data ← fs grid_file;
  entry ← of_result (pickle_getitem grid_data "voxels");
  grid_voxels ← match entry with
                | PVoxels voxels => Done voxels
                | PExtra _ => Failed (Exn TypeError)
                end;
  let grid_voxels :=
    match voxel_range with
    | Some range => slice_range grid_voxels range
    | None => grid_voxels
    end in
  of_result (result_map (result_map point2d_of) grid_voxels).

(** load_grid_extras (lines 54-77) *)
Definition load_grid_extras (fs : string -> outcome pickle_dict)
    (directory system : string) (grid_file : option string)
  : outcome pickle_dict :=
  let grid_file := grid_path directory system grid_file in
  saved_extras ← fs grid_file;
  popped ← of_result (pickle_pop saved_extras "voxels");
  Done (snd popped).

(** A grid file of two cells with two extra entries. *)
Definition sample_pickle : pickle_dict :=
  [("voxels"%string,
    PVoxels [[[0; 0]; [1; 0]; [1; 1]]; [[1; 0]; [2; 0]; [2; 1]]]%Q);
   ("index_1D_to_2D_map"%string, PExtra 1);
   ("laplacian"%string, PExtra 2)].

Definition sample_fs (path : string) : outcome pickle_dict :=
  if String.eqb path "/grids/core_rectilinear_grid.pickle"
  then Done sample_pickle
  else Failed (Exn (ArchiveError 2)).

(** A vertex and the point made of it. *)
Definition point_of_vertex (vertex : list Q) (p : Point2D) : Prop :=
  vertex = [point2d_x p; point2d_y p].

(** * Facts *)

(** ** Comparisons and reductions *)

Lemma Qltb_lt (x y : Q) : Qltb x y = true <-> (x < y)%Q.
Proof.
  unfold Qltb. rewrite negb_true_iff.
  destruct (Qle_bool y x) eqn:E.
  - apply Qle_bool_iff in E. split; [discriminate|intros H; lra].
  - split; [intros _|reflexivity].
    destruct (Qlt_le_dec x y) as [?|Hle]; [assumption|].
    apply Qle_bool_iff in Hle. congruence.
Qed.

Lemma Qltb_ge (x y : Q) : Qltb x y = false <-> (y <= x)%Q.
Proof.
  destruct (Qltb x y) eqn:E.
  - apply Qltb_lt in E. split; [discriminate|intros H; lra].
  - split; [intros _|reflexivity].
    destruct (Qlt_le_dec x y) as [Hlt|?]; [|assumption].
    apply Qltb_lt in Hlt. congruence.
Qed.

Lemma Qneb_false (x y : Q) : Qneb x y = false <-> (x == y)%Q.
Proof. unfold Qneb. rewrite negb_false_iff. apply Qeq_bool_iff. Qed.

Lemma Qle_bool_false (x y : Q) : Qle_bool x y = false <-> (y < x)%Q.
Proof.
  pose proof (Qltb_lt y x) as H. unfold Qltb in H.
  rewrite negb_true_iff in H. exact H.
Qed.

Lemma getitem_Ok {A : Type} (a : list A) (i : nat) (x : A) :
  getitem a i = Ok x <-> a !! i = Some x.
Proof. unfold getitem. destruct (a !! i); split; congruence. Qed.

Lemma getitem_lookup {A : Type} (a : list A) (i : nat) :
  getitem a i = match a !! i with Some x => Ok x | None => Raise IndexError end.
Proof. reflexivity. Qed.

(** foldl Qminb is a lower bound that is attained. *)
Lemma foldl_Qminb_le (xs : list Q) (x : Q) :
  (foldl Qminb x xs <= x)%Q /\
  forall y, y ∈ xs -> (foldl Qminb x xs <= y)%Q.
Proof.
  revert x. induction xs as [|z xs IH]; intros x; simpl.
  - split; [lra|]. intros y Hy. inversion Hy.
  - destruct (IH (Qminb x z)) as [H1 H2].
    assert (Hm : (Qminb x z <= x)%Q /\ (Qminb x z <= z)%Q).
    { unfold Qminb. destruct (Qltb z x) eqn:E.
      - apply Qltb_lt in E. lra.
      - apply Qltb_ge in E. lra. }
    split; [lra|].
    intros y Hy. apply elem_of_cons in Hy as [->|Hy]; [lra|auto].
Qed.

Lemma foldl_Qmaxb_ge (xs : list Q) (x : Q) :
  (x <= foldl Qmaxb x xs)%Q /\
  forall y, y ∈ xs -> (y <= foldl Qmaxb x xs)%Q.
Proof.
  revert x. induction xs as [|z xs IH]; intros x; simpl.
  - split; [lra|]. intros y Hy. inversion Hy.
  - destruct (IH (Qmaxb x z)) as [H1 H2].
    assert (Hm : (x <= Qmaxb x z)%Q /\ (z <= Qmaxb x z)%Q).
    { unfold Qmaxb. destruct (Qltb x z) eqn:E.
      - apply Qltb_lt in E. lra.
      - apply Qltb_ge in E. lra. }
    split; [lra|].
    intros y Hy. apply elem_of_cons in Hy as [->|Hy]; [lra|auto].
Qed.

Lemma foldl_Qminb_in (xs : list Q) (x : Q) : foldl Qminb x xs ∈ x :: xs.
Proof.
  revert x. induction xs as [|z xs IH]; intros x; simpl.
  - apply elem_of_cons. by left.
  - specialize (IH (Qminb x z)).
    apply elem_of_cons in IH as [->|IH];
      [|by do 2 apply list_elem_of_further].
    unfold Qminb. destruct (Qltb z x);
      [apply list_elem_of_further|]; apply list_elem_of_here.
Qed.

Lemma foldl_Qmaxb_in (xs : list Q) (x : Q) : foldl Qmaxb x xs ∈ x :: xs.
Proof.
  revert x. induction xs as [|z xs IH]; intros x; simpl.
  - apply elem_of_cons. by left.
  - specialize (IH (Qmaxb x z)).
    apply elem_of_cons in IH as [->|IH];
      [|by do 2 apply list_elem_of_further].
    unfold Qmaxb. destruct (Qltb x z);
      [apply list_elem_of_further|]; apply list_elem_of_here.
Qed.

Lemma np_min_spec (a : list Q) (lo : Q) :
  np_min a = Ok lo -> lo ∈ a /\ forall y, y ∈ a -> (lo <= y)%Q.
Proof.
  destruct a as [|x xs]; simpl; [discriminate|].
  intros [= <-]. split; [apply foldl_Qminb_in|].
  intros y Hy. destruct (foldl_Qminb_le xs x) as [H1 H2].
  apply elem_of_cons in Hy as [->|Hy]; auto.
Qed.

Lemma np_max_spec (a : list Q) (hi : Q) :
  np_max a = Ok hi -> hi ∈ a /\ forall y, y ∈ a -> (y <= hi)%Q.
Proof.
  destruct a as [|x xs]; simpl; [discriminate|].
  intros [= <-]. split; [apply foldl_Qmaxb_in|].
  intros y Hy. destruct (foldl_Qmaxb_ge xs x) as [H1 H2].
  apply elem_of_cons in Hy as [->|Hy]; auto.
Qed.

(** ** Binary search on an ascending array *)

Lemma sorted_lookup_le (a : list Q) (i j : nat) (x y : Q) :
  StronglySorted Qle a -> (i <= j)%nat ->
  a !! i = Some x -> a !! j = Some y -> (x <= y)%Q.
Proof.
  intros Hs. revert i j. induction Hs as [|z a Hs IH Hall]; intros i j Hij Hi Hj.
  - rewrite lookup_nil in Hi. discriminate.
  - destruct i as [|i], j as [|j]; simpl in Hi, Hj; try lia.
    + assert (x = y) by congruence. subst. apply Qle_refl.
    + injection Hi as ->. rewrite Forall_forall in Hall.
      apply Hall. eapply list_elem_of_lookup_2; eauto.
    + apply (IH i j); [lia|assumption|assumption].
Qed.

Lemma strictly_ascending_ascending (a : list Q) :
  strictly_ascending a -> StronglySorted Qle a.
Proof.
  induction 1 as [|z a Hs IH Hall]; constructor; [assumption|].
  eapply Forall_impl; [exact Hall|]. intros y Hy. by apply Qlt_le_weak.
Qed.


Lemma splits_at_unique (a : list Q) (v : Q) (i i' : nat) :
  (i <= length a)%nat -> (i' <= length a)%nat ->
  splits_at a v i -> splits_at a v i' -> i = i'.
Proof.
  intros Hi Hi' [B1 A1] [B2 A2].
  destruct (Nat.lt_trichotomy i i') as [Hlt|[?|Hlt]]; [|assumption|].
  - destruct (lookup_lt_is_Some_2 a i) as [x Hx]; [lia|].
    specialize (A1 i x (Nat.le_refl _) Hx). specialize (B2 i x Hlt Hx). lra.
  - destruct (lookup_lt_is_Some_2 a i') as [x Hx]; [lia|].
    specialize (A2 i' x (Nat.le_refl _) Hx). specialize (B1 i' x Hlt Hx). lra.
Qed.

Lemma binsearch_left_S (fuel : nat) (a : list Q) (v : Q) (lo hi : nat) :
  binsearch_left (S fuel) a v lo hi =
  if (lo <? hi)%nat then
    match a !! (lo + (hi - lo) / 2)%nat with
    | Some mid_val =>
        if Qltb mid_val v
        then binsearch_left fuel a v (lo + (hi - lo) / 2 + 1) hi
        else binsearch_left fuel a v lo (lo + (hi - lo) / 2)
    | None => lo
    end
  else lo.
Proof. reflexivity. Qed.

Lemma binsearch_left_splits (fuel : nat) (a : list Q) (v : Q) :
  StronglySorted Qle a ->
  forall lo hi : nat,
    (lo <= hi)%nat -> (hi <= length a)%nat -> (hi - lo <= fuel)%nat ->
    (forall j x, (j < lo)%nat -> a !! j = Some x -> (x < v)%Q) ->
    (forall j x, (hi <= j)%nat -> a !! j = Some x -> (v <= x)%Q) ->
    (lo <= binsearch_left fuel a v lo hi <= hi)%nat /\
    splits_at a v (binsearch_left fuel a v lo hi).
Proof.
  intros Hs. induction fuel as [|fuel IH]; intros lo hi Hle Hhi Hfuel Hb Ha.
  - simpl. assert (lo = hi) by lia. subst. repeat split; auto.
  - rewrite binsearch_left_S. destruct (lo <? hi)%nat eqn:E.
    + apply Nat.ltb_lt in E.
      set (mid := (lo + (hi - lo) / 2)%nat).
      assert (Hmid : (lo <= mid < hi)%nat).
      { subst mid. pose proof (Nat.Div0.div_lt_upper_bound (hi - lo) 2 (hi - lo)).
        lia. }
      destruct (lookup_lt_is_Some_2 a mid) as [mv Hmv]; [lia|].
      rewrite Hmv. destruct (Qltb mv v) eqn:Ev.
      * apply Qltb_lt in Ev.
        destruct (IH (mid + 1)%nat hi) as [Hr Hsp]; try lia; auto.
        { intros j x Hj Hx.
          assert (x <= mv)%Q by (eapply (sorted_lookup_le a j mid); eauto; lia).
          lra. }
        split; [lia|assumption].
      * apply Qltb_ge in Ev.
        destruct (IH lo mid) as [Hr Hsp]; try lia; auto.
        { intros j x Hj Hx.
          assert (mv <= x)%Q by (eapply (sorted_lookup_le a mid j); eauto; lia).
          lra. }
        split; [lia|assumption].
    + apply Nat.ltb_ge in E. assert (lo = hi) by lia. subst.
      repeat split; auto.
Qed.

Lemma searchsorted_left_splits (a : list Q) (v : Q) :
  StronglySorted Qle a ->
  (searchsorted_left a v <= length a)%nat /\
  splits_at a v (searchsorted_left a v).
Proof.
  intros Hs. unfold searchsorted_left.
  destruct (binsearch_left_splits (length a) a v Hs 0 (length a))
    as [Hr Hsp]; [lia|lia|lia|intros j x Hj; lia| |split; [lia|assumption]].
  intros j x Hj Hx. apply lookup_lt_Some in Hx. lia.
Qed.

Lemma insertion_point_le (a : list Q) (v : Q) :
  (insertion_point a v <= length a)%nat.
Proof.
  induction a as [|x a IH]; simpl; [lia|]. destruct (Qltb x v); lia.
Qed.

Lemma insertion_point_splits (a : list Q) (v : Q) :
  StronglySorted Qle a -> splits_at a v (insertion_point a v).
Proof.
  induction 1 as [|z a Hs IH Hall]; simpl.
  - split; intros j x Hj Hx; rewrite lookup_nil in Hx; discriminate.
  - destruct (Qltb z v) eqn:E.
    + apply Qltb_lt in E. destruct IH as [B A]. split; intros [|j] x Hj Hx;
        simpl in Hx; try lia.
      * injection Hx as <-. assumption.
      * apply (B j x); [lia|assumption].
      * apply (A j x); [lia|assumption].
    + apply Qltb_ge in E. split; intros j x Hj Hx; [lia|].
      destruct j as [|j]; simpl in Hx.
      * injection Hx as <-. assumption.
      * rewrite Forall_forall in Hall.
        assert (z <= x)%Q by (apply Hall; eapply list_elem_of_lookup_2; eauto).
        lra.
Qed.

(** On an ascending array numpy's binary search finds the insertion point. *)
Lemma searchsorted_left_insertion_point (a : list Q) (v : Q) :
  StronglySorted Qle a -> searchsorted_left a v = insertion_point a v.
Proof.
  intros Hs. destruct (searchsorted_left_splits a v Hs) as [Hle Hsp].
  eapply splits_at_unique; eauto using insertion_point_le,
    insertion_point_splits.
Qed.

(** ** _find_nearest on an ascending array *)

Lemma bind_Ok {A B : Type} (a : A) (k : A -> result B) : (Ok a ≫= k) = k a.
Proof. reflexivity. Qed.

Lemma bind_Raise {A B : Type} (e : exn) (k : A -> result B) :
  (Raise e ≫= k) = Raise e.
Proof. reflexivity. Qed.

Lemma find_nearest_copies (array : list Q) (value : Q) :
  MASTUEquilibrium._find_nearest array value
  = MASTEquilibrium._find_nearest array value.
Proof. reflexivity. Qed.

Lemma Qsquare (x : Q) : (x ^ 2)%Q = (x * x)%Q.
Proof. reflexivity. Qed.

(** Past the range check, the function reads the samples at the insertion
    point and after it. *)
Lemma find_nearest_in_range (array : list Q) (value : Q) :
  in_range array value ->
  MASTEquilibrium._find_nearest array value =
  let index := searchsorted_left array value in
  x ← getitem array index;
  y ← getitem array (index + 1);
  if Qltb ((value - x) ^ 2) ((value - y) ^ 2) then Ok index
  else Ok (index + 1)%nat.
Proof.
  intros (lo & hi & Hmin & Hmax & Hlo & Hhi).
  unfold MASTEquilibrium._find_nearest.
  rewrite Hmin, bind_Ok, Hmax.
  apply Qltb_ge in Hlo, Hhi. rewrite Hlo, bind_Ok, Hhi. reflexivity.
Qed.



(** Where a sample follows the insertion point, _find_nearest computes the
    nearest-index rule: it compares the squared distances to the sample at
    the insertion point and to the next one and returns the closer index,
    the later one on a tie. *)
Lemma find_nearest_rule_before_last (samples : list Q) (query : Q) :
  strictly_ascending samples -> in_range samples query ->
  (S (insertion_point samples query) < length samples)%nat ->
  MASTEquilibrium._find_nearest samples query
  = result_of_index (nearest_index_rule samples query).
Proof.
  intros Hs Hr Hnext. apply strictly_ascending_ascending in Hs.
  rewrite find_nearest_in_range by assumption. cbv zeta.
  rewrite searchsorted_left_insertion_point by assumption.
  unfold nearest_index_rule. set (i := insertion_point samples query).
  fold i in Hnext.
  rewrite !getitem_lookup, Nat.add_1_r.
  destruct (lookup_lt_is_Some_2 samples i) as [x Hx]; [lia|].
  destruct (lookup_lt_is_Some_2 samples (S i) Hnext) as [y Hy].
  rewrite Hx, bind_Ok, Hy, bind_Ok, !Qsquare.
  unfold squared_distance. cbn [mbind option_bind mret option_ret result_of_index].
  destruct (Qcompare_spec ((query - x) * (query - x))
                          ((query - y) * (query - y))) as [C|C|C];
    destruct (Qltb _ _) eqn:E; try reflexivity;
    first [apply Qltb_lt in E | apply Qltb_ge in E]; lra.
Qed.

(** Where the insertion point is the last index, the rule returns it and
    _find_nearest raises IndexError on the read of the sample after it. *)
Lemma find_nearest_rule_at_last (samples : list Q) (query : Q) :
  strictly_ascending samples -> in_range samples query ->
  S (insertion_point samples query) = length samples ->
  nearest_index_rule samples query = Some (insertion_point samples query) /\
  MASTEquilibrium._find_nearest samples query = Raise IndexError.
Proof.
  intros Hs Hr Hlast. apply strictly_ascending_ascending in Hs.
  rewrite find_nearest_in_range by assumption. cbv zeta.
  rewrite searchsorted_left_insertion_point by assumption.
  unfold nearest_index_rule. set (i := insertion_point samples query).
  fold i in Hlast.
  rewrite !getitem_lookup, Nat.add_1_r.
  destruct (lookup_lt_is_Some_2 samples i) as [x Hx]; [lia|].
  rewrite Hx, bind_Ok, (lookup_ge_None_2 samples (S i)) by lia.
  split; reflexivity.
Qed.

Lemma spec_samples_strictly_ascending : strictly_ascending spec_samples.
Proof. repeat constructor. Defined.

Lemma in_range_intro (samples : list Q) (lo hi query : Q) :
  np_min samples = Ok lo -> np_max samples = Ok hi ->
  Qle_bool lo query = true -> Qle_bool query hi = true ->
  in_range samples query.
Proof.
  intros Hmin Hmax Hlo Hhi. exists lo, hi.
  repeat split; try assumption; by apply Qle_bool_iff.
Defined.

(** C5, at the failing inputs. On samples [0.0, 0.1, 0.2, 0.3] the queries
    0.24 and 0.3 (the maximum) lie within [min, max] and their insertion
    point is the last index, 3: the nearest-index rule returns index 3, and
    _find_nearest raises IndexError on the read of the sample at index 4. *)
Theorem find_nearest_departs_from_nearest_index_rule :
  strictly_ascending spec_samples /\
  in_range spec_samples (24 # 100) /\
  insertion_point spec_samples (24 # 100) = 3%nat /\
  nearest_index_rule spec_samples (24 # 100) = Some 3%nat /\
  MASTEquilibrium._find_nearest spec_samples (24 # 100) = Raise IndexError /\
  in_range spec_samples (3 # 10) /\
  insertion_point spec_samples (3 # 10) = 3%nat /\
  nearest_index_rule spec_samples (3 # 10) = Some 3%nat /\
  MASTEquilibrium._find_nearest spec_samples (3 # 10) = Raise IndexError.
Proof.
  split; [exact spec_samples_strictly_ascending|].
  split; [apply (in_range_intro _ 0 (3 # 10)); reflexivity|].
  split; [reflexivity|]. split; [reflexivity|]. split; [reflexivity|].
  split; [apply (in_range_intro _ 0 (3 # 10)); reflexivity|].
  repeat split.
Qed.

(** C1. On the specification's own example, samples [0.0, 0.1, 0.2, 0.3] and
    query 0.24, index 2 is the nearest sample, and both copies of
    _find_nearest raise IndexError instead of returning it: the insertion
    point is the last index, 3, and the sample read after it does not
    exist. *)
Theorem find_nearest_fails_on_nearest_example :
  strictly_ascending spec_samples /\
  in_range spec_samples (24 # 100) /\
  is_nearest_index spec_samples (24 # 100) 2 /\
  searchsorted_left spec_samples (24 # 100) = 3%nat /\
  MASTEquilibrium._find_nearest spec_samples (24 # 100) = Raise IndexError /\
  MASTUEquilibrium._find_nearest spec_samples (24 # 100) = Raise IndexError.
Proof.
  split; [exact spec_samples_strictly_ascending|].
  split; [apply (in_range_intro _ 0 (3 # 10)); reflexivity|].
  split; [|repeat split].
  exists (2 # 10)%Q. split; [reflexivity|].
  intros j s' Hj.
  destruct j as [|[|[|[|j]]]]; simpl in Hj; try discriminate;
    injection Hj as <-; (split; [vm_compute; discriminate|]);
    intros Heq; try lia.
  vm_compute in Heq. discriminate.
Qed.

(** Where the insertion point has a next sample, the function returns the
    insertion point even when the sample before it is the nearer one:
    query 0.14 is nearest to index 1 and index 2 is returned. *)
Lemma find_nearest_returns_later_neighbour :
  is_nearest_index spec_samples (14 # 100) 1 /\
  MASTEquilibrium._find_nearest spec_samples (14 # 100) = Ok 2%nat.
Proof.
  split; [|reflexivity].
  exists (1 # 10)%Q. split; [reflexivity|].
  intros j s' Hj.
  destruct j as [|[|[|[|j]]]]; simpl in Hj; try discriminate;
    injection Hj as <-; (split; [vm_compute; discriminate|]);
    intros Heq; try lia; vm_compute in Heq; discriminate.
Qed.

(** ** The constructors *)

Ltac unfold_io :=
  unfold run, mbind, io_bind, lift, pyuda_Client, client_get, mret, io_ret.

(** Reading the outcome of a constructor run: every archive query on the
    way answered. *)
Ltac step_io H :=
  match type of H with
  | context [match ?r with Ok _ => _ | Raise _ => _ end] =>
      destruct r eqn:?; try discriminate H
  | context [if ?b then _ else _] => destruct b eqn:?; try discriminate H
  end.

Lemma MAST_init_time_range (ar : Archive) (p : pulse) (log : list event)
    (self : MASTEquilibrium.t) :
  run (MASTEquilibrium.__init__ ar p) = (log, Ok self) ->
  np_min (MASTEquilibrium.time_slices self)
    = Ok (fst (MASTEquilibrium.time_range self)) /\
  np_max (MASTEquilibrium.time_slices self)
    = Ok (snd (MASTEquilibrium.time_range self)).
Proof.
  unfold MASTEquilibrium.__init__. unfold_io.
  intros H. repeat step_io H.
  injection H as _ <-. simpl. split; assumption.
Qed.

Lemma MASTU_init_time_range (ar : Archive) (p : pulse) (log : list event)
    (self : MASTUEquilibrium.t) :
  run (MASTUEquilibrium.__init__ ar p) = (log, Ok self) ->
  np_min (MASTUEquilibrium.time_slices self)
    = Ok (fst (MASTUEquilibrium.time_range self)) /\
  np_max (MASTUEquilibrium.time_slices self)
    = Ok (snd (MASTUEquilibrium.time_range self)).
Proof.
  unfold MASTUEquilibrium.__init__. unfold_io.
  intros H. repeat step_io H.
  - injection H as _ <-. simpl. split; assumption.
  - injection H as _ <-. simpl. split; assumption.
Qed.

(** ** Queries outside the sampled range *)

Lemma find_nearest_outside (samples : list Q) (lo hi query : Q) :
  np_min samples = Ok lo -> np_max samples = Ok hi ->
  (query < lo \/ hi < query)%Q ->
  MASTEquilibrium._find_nearest samples query = Raise IndexError.
Proof.
  intros Hmin Hmax Hout. unfold MASTEquilibrium._find_nearest.
  rewrite Hmin, bind_Ok. destruct (Qltb query lo) eqn:E; [reflexivity|].
  apply Qltb_ge in E. rewrite Hmax, bind_Ok.
  destruct Hout as [Hout|Hout]; [lra|].
  apply Qltb_lt in Hout. rewrite Hout. reflexivity.
Qed.

(** C2. A query strictly below the smallest or strictly above the largest
    sample time makes time() raise the ValueError whose message holds the
    bounds [min, max] of the sample times: for every MASTEquilibrium that its
    constructor has built, and for every MASTUEquilibrium. *)
Theorem time_outside_range_raises (samples : list Q) (lo hi query : Q) :
  np_min samples = Ok lo -> np_max samples = Ok hi ->
  (query < lo \/ hi < query)%Q ->
  (forall ar p log self,
      run (MASTEquilibrium.__init__ ar p) = (log, Ok self) ->
      MASTEquilibrium.time_slices self = samples ->
      MASTEquilibrium.time self query
      = Raise (ValueError (OutsideRange lo hi))) /\
  (forall self,
      MASTUEquilibrium.time_slices self = samples ->
      MASTUEquilibrium.time self query
      = Raise (ValueError (OutsideRange lo hi))).
Proof.
  intros Hmin Hmax Hout. split.
  - intros ar p log self Hinit Hts.
    destruct (MAST_init_time_range _ _ _ _ Hinit) as [Hlo Hhi].
    rewrite Hts, Hmin in Hlo. rewrite Hts, Hmax in Hhi.
    injection Hlo as Hlo. injection Hhi as Hhi.
    unfold MASTEquilibrium.time.
    rewrite Hts, (find_nearest_outside samples lo hi query) by assumption.
    rewrite bind_Raise. cbn [except_IndexError]. rewrite <- Hlo, <- Hhi.
    reflexivity.
  - intros self Hts. unfold MASTUEquilibrium.time.
    rewrite Hts, Hmin, bind_Ok, Hmax, bind_Ok.
    assert (Hc : Qle_bool lo query && Qle_bool query hi = false).
    { apply andb_false_iff. destruct Hout as [Hout|Hout];
        [left|right]; by apply Qle_bool_false. }
    rewrite Hc. reflexivity.
Qed.

Lemma time_outside_range_witness :
  (exists log self,
      run (MASTEquilibrium.__init__ square_archive (PInt 30000))
      = (log, Ok self) /\
      MASTEquilibrium.time self 5 = Raise (ValueError (OutsideRange 0 4))) /\
  (exists log self,
      run (MASTUEquilibrium.__init__ square_archive (PInt 45000))
      = (log, Ok self) /\
      MASTUEquilibrium.time self 5 = Raise (ValueError (OutsideRange 0 4))).
Proof.
  destruct (time_outside_range_raises [0; 2; 4]%Q 0 4 5 eq_refl eq_refl
              (or_intror eq_refl)) as [Hmast Hmastu].
  split.
  - eexists _, _. split; [vm_compute; reflexivity|].
    match goal with
    | |- MASTEquilibrium.time ?self _ = _ =>
        eapply (Hmast square_archive (PInt 30000) _ self);
          [vm_compute; reflexivity|reflexivity]
    end.
  - eexists _, _. split; [vm_compute; reflexivity|].
    apply Hmastu. reflexivity.
Defined.

(** ** The boundary polygon sanitiser *)

Lemma differs_from_orb (r0 z0 r z : Q) :
  differs_from (r0, z0) (r, z) = Qneb r r0 || Qneb z z0.
Proof.
  unfold differs_from, vertex_eqb, Qneb. simpl.
  destruct (Qeq_bool r r0), (Qeq_bool z z0); reflexivity.
Qed.

Lemma mask_select_zip (r0 z0 : Q) (poly_r poly_z : list Q) :
  length poly_r = length poly_z ->
  let unique := zip_with orb (map (fun r => Qneb r r0) poly_r)
                             (map (fun z => Qneb z z0) poly_z) in
  zip (mask_select poly_r unique) (mask_select poly_z unique)
  = List.filter (differs_from (r0, z0)) (zip poly_r poly_z).
Proof.
  revert poly_z. induction poly_r as [|r poly_r IH]; intros [|z poly_z] Hlen;
    simpl in *; try discriminate; [reflexivity|].
  injection Hlen as Hlen. specialize (IH poly_z Hlen). simpl in IH.
  rewrite differs_from_orb.
  destruct (Qneb r r0 || Qneb z z0); simpl; rewrite IH; reflexivity.
Qed.

(** The sanitiser in one equation: the first point, then the points that
    differ from it, in their order. *)
Lemma process_polygon_filter (r0 z0 : Q) (rest_r rest_z : list Q) :
  length rest_r = length rest_z -> (1 <= length rest_r)%nat ->
  MASTEquilibrium._process_efit_lcfs_polygon (r0 :: rest_r) (z0 :: rest_z)
  = Ok ((r0, z0) :: List.filter (differs_from (r0, z0)) (zip rest_r rest_z)).
Proof.
  intros Hlen Hn. unfold MASTEquilibrium._process_efit_lcfs_polygon.
  cbn [length]. rewrite Hlen, Nat.eqb_refl. cbn [negb].
  destruct (S (length rest_z) <? 2)%nat eqn:E;
    [apply Nat.ltb_lt in E; lia|].
  cbn [getitem lookup list_lookup]. rewrite !bind_Ok.
  cbn [map zip_with insert list_insert mask_select].
  pose proof (mask_select_zip r0 z0 rest_r rest_z Hlen) as Hz.
  cbv zeta in Hz. simpl. rewrite <- Hz. reflexivity.
Qed.


(** C6. On equal-length arrays of at least two points the output is the
    first input point followed by exactly those later points that differ
    from it in either coordinate, in their order and with their repeats:
    every later copy of the first point is removed, and a point that differs
    from the first is kept even when it repeats another one. *)
Theorem sanitiser_keeps_first_and_drops_its_copies (poly_r poly_z : list Q) :
  length poly_r = length poly_z -> (2 <= length poly_r)%nat ->
  exists first others,
    zip poly_r poly_z = first :: others /\
    MASTEquilibrium._process_efit_lcfs_polygon poly_r poly_z
    = Ok (first :: List.filter (fun p => negb (vertex_eqb p first)) others).
Proof.
  intros Hlen Hn.
  destruct poly_r as [|r0 rest_r], poly_z as [|z0 rest_z];
    simpl in Hlen, Hn; try discriminate; try lia.
  injection Hlen as Hlen.
  exists (r0, z0), (zip rest_r rest_z). split; [reflexivity|].
  apply process_polygon_filter; [assumption|lia].
Qed.

Lemma sanitiser_keeps_interior_repeats_witness :
  exists first others,
    zip [0; 1; 1; 0; 2]%Q [0; 1; 1; 0; 2]%Q = first :: others /\
    MASTEquilibrium._process_efit_lcfs_polygon [0; 1; 1; 0; 2]%Q [0; 1; 1; 0; 2]%Q
    = Ok (first :: List.filter (fun p => negb (vertex_eqb p first)) others).
Proof.
  apply (sanitiser_keeps_first_and_drops_its_copies
           [0; 1; 1; 0; 2]%Q [0; 1; 1; 0; 2]%Q); [reflexivity|simpl; lia].
Defined.

(** C7. The sanitiser raises the shape-mismatch ValueError exactly when the
    two arrays differ in length, the too-few-points ValueError exactly when
    they agree in length and hold fewer than two points, and returns a
    polygon in every other case. *)
Theorem sanitiser_errors (poly_r poly_z : list Q) :
  (length poly_r <> length poly_z ->
   MASTEquilibrium._process_efit_lcfs_polygon poly_r poly_z
   = Raise (ValueError InconsistentLength)) /\
  (length poly_r = length poly_z -> (length poly_r < 2)%nat ->
   MASTEquilibrium._process_efit_lcfs_polygon poly_r poly_z
   = Raise (ValueError LessThan2Points)) /\
  (length poly_r = length poly_z -> (2 <= length poly_r)%nat ->
   exists points,
     MASTEquilibrium._process_efit_lcfs_polygon poly_r poly_z = Ok points).
Proof.
  repeat split.
  - intros Hne. unfold MASTEquilibrium._process_efit_lcfs_polygon.
    apply Nat.eqb_neq in Hne. rewrite Hne. reflexivity.
  - intros Heq Hlt. unfold MASTEquilibrium._process_efit_lcfs_polygon.
    rewrite <- Heq, Nat.eqb_refl. apply Nat.ltb_lt in Hlt. rewrite Hlt.
    reflexivity.
  - intros Heq Hn.
    destruct poly_r as [|r0 rest_r], poly_z as [|z0 rest_z];
      simpl in Heq, Hn; try discriminate; try lia.
    injection Heq as Heq. eexists.
    apply process_polygon_filter; [assumption|lia].
Qed.

Lemma sanitiser_errors_witness :
  MASTEquilibrium._process_efit_lcfs_polygon [0; 1; 1]%Q [0; 0]%Q
  = Raise (ValueError InconsistentLength) /\
  MASTEquilibrium._process_efit_lcfs_polygon [0]%Q [0]%Q
  = Raise (ValueError LessThan2Points) /\
  exists points,
    MASTEquilibrium._process_efit_lcfs_polygon square_r square_z = Ok points.
Proof.
  split; [|split].
  - apply (proj1 (sanitiser_errors [0; 1; 1]%Q [0; 0]%Q)). simpl. lia.
  - apply (proj1 (proj2 (sanitiser_errors [0]%Q [0]%Q))); simpl; lia.
  - apply (proj2 (proj2 (sanitiser_errors square_r square_z))); simpl; lia.
Defined.

Lemma filter_Forall_true {A : Type} (f : A -> bool) (l : list A) :
  Forall (fun p => f p = true) (List.filter f l).
Proof.
  induction l as [|x l IH]; simpl; [constructor|].
  destruct (f x) eqn:E; [constructor; assumption|assumption].
Qed.

Lemma filter_all_true {A : Type} (f : A -> bool) (l : list A) :
  Forall (fun p => f p = true) l -> List.filter f l = l.
Proof.
  induction 1 as [|x l Hx Hl IH]; simpl; [reflexivity|].
  rewrite Hx, IH. reflexivity.
Qed.

Lemma filter_length_bound {A : Type} (f : A -> bool) (l : list A) :
  (length (List.filter f l) <= length l)%nat.
Proof.
  induction l as [|x l IH]; simpl; [lia|]. destruct (f x); simpl; lia.
Qed.

Lemma zip_length_eq {A B : Type} (l : list A) (k : list B) :
  length l = length k -> length (zip l k) = length l.
Proof.
  revert k. induction l as [|a l IH]; intros [|b k] Hlen; simpl in *;
    try discriminate; [reflexivity|].
  injection Hlen as Hlen. rewrite IH by assumption. reflexivity.
Qed.




(** ** The polygons of a returned time-slice *)

(** The archive of a closed square whose closing vertex is stored twice. *)
Lemma doubly_closed_polygon_stays_closed :
  MASTUEquilibrium.open_polygon [0; 1; 1; 0; 0; 0]%Q [0; 0; 1; 1; 0; 0]%Q
  = Ok ([0; 1; 1; 0; 0], [0; 0; 1; 1; 0])%Q.
Proof. reflexivity. Qed.

(** C4, at the failing inputs. A limiter and an LCFS polygon stored with two
    copies of the closing vertex come back from MASTUEquilibrium.time with a
    last vertex equal to the first: one copy only is dropped. A polygon
    all of whose points are equal comes back from MASTEquilibrium.time as a
    single vertex. *)
Theorem time_returns_closed_polygon :
  (exists log self slice,
      run (MASTUEquilibrium.__init__
             (sample_archive [0; 2; 4]%Q [0; 1; 1; 0; 0; 0]%Q
                             [0; 0; 1; 1; 0; 0]%Q) (PInt 45000))
      = (log, Ok self) /\
      MASTUEquilibrium.time self 2 = Ok slice /\
      efit_lcfs_polygon slice = ([0; 1; 1; 0; 0], [0; 0; 1; 1; 0])%Q /\
      column (efit_lcfs_polygon slice) 0 = Ok (0, 0)%Q /\
      last_column (efit_lcfs_polygon slice) = Ok (0, 0)%Q /\
      column (efit_limiter_polygon slice) 0 = Ok (0, 0)%Q /\
      last_column (efit_limiter_polygon slice) = Ok (0, 0)%Q) /\
  (exists log self slice,
      run (MASTEquilibrium.__init__
             (sample_archive [0; 2; 4]%Q [1; 1]%Q [0; 0]%Q) (PInt 30000))
      = (log, Ok self) /\
      MASTEquilibrium.time self 1 = Ok slice /\
      efit_lcfs_polygon slice = ([1], [0])%Q /\
      column (efit_lcfs_polygon slice) 0
      = last_column (efit_lcfs_polygon slice)).
Proof.
  split.
  - eexists _, _, _. split; [vm_compute; reflexivity|].
    split; [vm_compute; reflexivity|]. repeat split.
  - eexists _, _, _. split; [vm_compute; reflexivity|].
    split; [vm_compute; reflexivity|]. repeat split.
Qed.

(** ** The two time-slice selections *)

(** C8. The two classes select differently on the same sample times
    [0, 2, 4]. The boundary query 4 lies within [min, max]:
    MASTEquilibrium.time raises the out-of-range error and
    MASTUEquilibrium.time returns the slice of time 4. The query 1 is as far
    from sample 0 as from sample 2: MASTEquilibrium selects index 1 (time 2),
    MASTUEquilibrium index 0 (time 0). *)
Theorem time_selection_differs :
  exists log log' mast mastu,
    run (MASTEquilibrium.__init__ square_archive (PInt 30000))
    = (log, Ok mast) /\
    run (MASTUEquilibrium.__init__ square_archive (PInt 45000))
    = (log', Ok mastu) /\
    MASTEquilibrium.time_slices mast = [0; 2; 4]%Q /\
    MASTUEquilibrium.time_slices mastu = [0; 2; 4]%Q /\
    in_range [0; 2; 4]%Q 4 /\
    MASTEquilibrium.time mast 4 = Raise (ValueError (OutsideRange 0 4)) /\
    (exists slice, MASTUEquilibrium.time mastu 4 = Ok slice
                   /\ efit_time slice = 4%Q) /\
    (Qabs (1 - 0) == Qabs (1 - 2))%Q /\
    MASTEquilibrium._find_nearest [0; 2; 4]%Q 1 = Ok 1%nat /\
    np_argmin (map (fun s => Qabs (s - 1)) [0; 2; 4]%Q) = Ok 0%nat /\
    (exists slice slice',
        MASTEquilibrium.time mast 1 = Ok slice /\
        MASTUEquilibrium.time mastu 1 = Ok slice' /\
        efit_time slice = 2%Q /\ efit_time slice' = 0%Q).
Proof.
  eexists _, _, _, _.
  split; [vm_compute; reflexivity|]. split; [vm_compute; reflexivity|].
  split; [reflexivity|]. split; [reflexivity|].
  split; [apply (in_range_intro _ 0 4); reflexivity|].
  split; [vm_compute; reflexivity|].
  split; [eexists; split; [vm_compute; reflexivity|reflexivity]|].
  split; [reflexivity|]. split; [reflexivity|]. split; [reflexivity|].
  eexists _, _. split; [vm_compute; reflexivity|].
  split; [vm_compute; reflexivity|]. split; reflexivity.
Qed.

(** ** Configuration errors of the loaders *)

Lemma string_in_false (s : string) (choices : list string) :
  s ∉ choices -> string_in s choices = false.
Proof.
  unfold string_in. induction choices as [|c choices IH]; intros Hs;
    [reflexivity|].
  apply not_elem_of_cons in Hs as [Hne Hs]. simpl.
  apply String.eqb_neq in Hne. rewrite Hne. auto.
Qed.

Lemma run_lift_bind {A B : Type} (r : result A) (k : A -> io B) :
  run (lift r ≫= k) = match r with
                      | Ok a => k a []
                      | Raise e => ([], Raise e)
                      end.
Proof. unfold run, mbind, io_bind, lift. destruct r; reflexivity. Qed.

(** C9, as amended. An identifier that does not split at '-' into exactly
    two parts, and one whose chamber part is neither 'sxdl' nor 'core' in
    lower case, makes load_default_bolometer_config raise a ValueError before
    any archive access. An unrecognised camera of a recognised chamber makes
    it raise a ValueError once the archive has answered the geometry query.
    The batch driver raises a ValueError for every camera argument outside
    its seven names. *)
Theorem bolometer_config_errors (ar : Archive) (shot : pulse)
    (bolometer_id : string) :
  (length (split "-" bolometer_id) <> 2%nat ->
   run (load_default_bolometer_config ar bolometer_id shot)
   = ([], Raise (ValueError UnpackMismatch))) /\
  (forall chamber camera_name : string,
      map strip (split "-" bolometer_id) = [chamber; camera_name] ->
      (lower chamber <> "sxdl"%string -> lower chamber <> "core"%string ->
       run (load_default_bolometer_config ar bolometer_id shot)
       = ([], Raise (ValueError BadChamber))) /\
      (connect ar = Ok tt ->
       geometry ar ("/bolo/" ++ lower chamber) shot = Ok tt ->
       (lower chamber = "sxdl"%string ->
        lower camera_name <> "outer"%string ->
        lower camera_name <> "upper"%string ->
        snd (run (load_default_bolometer_config ar bolometer_id shot))
        = Raise (ValueError BadSXDLCamera)) /\
       (lower chamber = "core"%string ->
        lower camera_name <> "poloidal"%string ->
        lower camera_name <> "tangential"%string ->
        snd (run (load_default_bolometer_config ar bolometer_id shot))
        = Raise (ValueError BadCoreCamera)))) /\
  (forall script camera : string,
      camera ∉ ["Outer"; "Upper"; "Poloidal"; "Tangential"; "PoloidalHighRes";
                "TangentialHighRes"; "Poloidal-MAST"]%string ->
      main [script; camera] = Raise (ValueError UnsupportedCamera)).
Proof.
  split; [|split].
  - intros Hlen. unfold load_default_bolometer_config.
    rewrite run_lift_bind.
    assert (Hlen' : length (map strip (split "-" bolometer_id)) <> 2%nat)
      by (rewrite length_map; exact Hlen).
    destruct (map strip (split "-" bolometer_id)) as [|a [|b [|c parts]]];
      simpl in Hlen'; try reflexivity. lia.
  - intros chamber camera_name Hparts. unfold load_default_bolometer_config.
    rewrite run_lift_bind, Hparts. cbn [unpack2 except_KeyError fst snd].
    split.
    + intros Hs Hc. apply String.eqb_neq in Hs, Hc.
      unfold string_in. cbn [existsb]. rewrite Hs, Hc. reflexivity.
    + intros Hconnect Hgeometry. split.
      * intros Hs Ho Hu. apply String.eqb_neq in Ho, Hu.
        unfold string_in, mbind, io_bind, lift, pyuda_Client, client_geometry.
        cbn [existsb]. rewrite Hconnect, Hgeometry, Hs. cbn.
        rewrite Ho, Hu. reflexivity.
      * intros Hc Hp Ht. apply String.eqb_neq in Hp, Ht.
        unfold string_in, mbind, io_bind, lift, pyuda_Client, client_geometry.
        cbn [existsb]. rewrite Hconnect, Hgeometry, Hc. cbn.
        rewrite Hp, Ht. reflexivity.
  - intros script camera Hnot. unfold main.
    cbn [getitem lookup list_lookup]. rewrite bind_Ok.
    repeat (apply not_elem_of_cons in Hnot as [?%String.eqb_neq Hnot]).
    unfold string_in. cbn [existsb].
    repeat match goal with H : (camera =? _)%string = false |- _ =>
      rewrite H; clear H end.
    reflexivity.
Qed.

Lemma bolometer_config_errors_witness :
  run (load_default_bolometer_config failing_archive "SXDL" (PInt 50000))
  = ([], Raise (ValueError UnpackMismatch)) /\
  run (load_default_bolometer_config failing_archive "Divertor - Outer"
         (PInt 50000))
  = ([], Raise (ValueError BadChamber)) /\
  snd (run (load_default_bolometer_config square_archive "SXDL - Foo"
              (PInt 50000)))
  = Raise (ValueError BadSXDLCamera) /\
  snd (run (load_default_bolometer_config square_archive "core - Outer"
              (PInt 50000)))
  = Raise (ValueError BadCoreCamera) /\
  main ["rtm_sensitivities.py"; "poloidal"]%string
  = Raise (ValueError UnsupportedCamera).
Proof.
  split; [|split; [|split; [|split]]].
  - apply (proj1 (bolometer_config_errors failing_archive (PInt 50000) "SXDL")).
    vm_compute. lia.
  - apply (proj1 (proj1 (proj2 (bolometer_config_errors failing_archive
                                  (PInt 50000) "Divertor - Outer"))
                    "Divertor" "Outer" eq_refl)%string);
      vm_compute; discriminate.
  - apply (proj1 (proj2 (proj1 (proj2 (bolometer_config_errors square_archive
                                  (PInt 50000) "SXDL - Foo"))
                    "SXDL" "Foo" eq_refl)%string eq_refl eq_refl));
      [reflexivity|vm_compute; discriminate|vm_compute; discriminate].
  - apply (proj2 (proj2 (proj1 (proj2 (bolometer_config_errors square_archive
                                  (PInt 50000) "core - Outer"))
                    "core" "Outer" eq_refl)%string eq_refl eq_refl));
      [reflexivity|vm_compute; discriminate|vm_compute; discriminate].
  - apply (proj2 (proj2 (bolometer_config_errors failing_archive (PInt 50000)
                           "SXDL"))).
    intros Hin. repeat (apply elem_of_cons in Hin as [Hin|Hin];
                        [discriminate Hin|]).
    by apply elem_of_nil in Hin.
Defined.

(** A recognised chamber with an unrecognised camera, on an archive whose
    geometry query fails: the archive is queried first, and its failure is
    what the caller sees. *)
Lemma bolometer_camera_check_counterexample :
  map strip (split "-" "SXDL - Foo") = ["SXDL"; "Foo"]%string /\
  string_in (lower "SXDL") ["sxdl"; "core"]%string = true /\
  string_in (lower "Foo") ["outer"; "upper"]%string = false /\
  run (load_default_bolometer_config failing_archive "SXDL - Foo" (PInt 50000))
  = ([Connect; Geometry "/bolo/sxdl" (PInt 50000)], Raise UDAException).
Proof. repeat split. Qed.

(** ** The pulse-range guards of the constructors *)

(** Past its guard MASTUEquilibrium.__init__ opens the archive client first,
    whatever the archive then answers. *)
Lemma MASTU_init_past_guard (ar : Archive) (p : pulse) :
  isinstance_int p = false ->
  exists rest, fst (run (MASTUEquilibrium.__init__ ar p)) = Connect :: rest.
Proof.
  intros Hp. unfold MASTUEquilibrium.__init__. rewrite Hp. unfold_io.
  cbn [app].
  repeat match goal with
         | |- context [match ?r with Ok _ => _ | Raise _ => _ end] =>
             destruct r
         end; eexists; reflexivity.
Qed.

(** On an archive that answers every query, with a time base that is not
    empty, MASTUEquilibrium.__init__ builds the object for a pulse that is
    not an int. *)
Lemma MASTU_init_succeeds (ar : Archive) (p : pulse) :
  isinstance_int p = false ->
  connect ar = Ok tt ->
  (forall name, exists s, get ar name p = Ok s /\ dim0 s <> []) ->
  exists log self, run (MASTUEquilibrium.__init__ ar p) = (log, Ok self).
Proof.
  intros Hp Hconnect Hget. unfold MASTUEquilibrium.__init__. rewrite Hp.
  unfold_io. rewrite Hconnect.
  destruct (Hget "/epm/output/profiles2D/poloidalFlux"%string)
    as (psi & Hpsi & Hdim).
  rewrite Hpsi. destruct (dim0 psi) as [|t0 times] eqn:Htimes; [congruence|].
  cbn [np_min np_max].
  repeat match goal with
         | |- context [get ar ?name p] =>
             let s := fresh "s" in
             let Hs := fresh "Hs" in
             destruct (Hget name) as (s & Hs & _); rewrite Hs
         end.
  eexists _, _. reflexivity.
Qed.

(** C10. MASTEquilibrium.__init__ raises its ValueError for every int and
    every float pulse from 40000 on, and MASTUEquilibrium.__init__ raises
    its ValueError for every int pulse below 40000, both with no archive
    access made. A float or str pulse is not range-checked by
    MASTUEquilibrium.__init__, whatever its value: the constructor goes on
    to open the archive client, and on an archive that answers it builds
    the object. *)
Theorem constructors_guard_pulse_range (ar : Archive) :
  (forall n : Z, (40000 <= n)%Z ->
     run (MASTEquilibrium.__init__ ar (PInt n))
     = ([], Raise (ValueError MASTPulseTooLate))) /\
  (forall x : Q, (40000 <= x)%Q ->
     run (MASTEquilibrium.__init__ ar (PFloat x))
     = ([], Raise (ValueError MASTPulseTooLate))) /\
  (forall n : Z, (n < 40000)%Z ->
     run (MASTUEquilibrium.__init__ ar (PInt n))
     = ([], Raise (ValueError MASTUPulseTooEarly))) /\
  (forall x : Q, exists rest,
     fst (run (MASTUEquilibrium.__init__ ar (PFloat x))) = Connect :: rest) /\
  (forall s : string, exists rest,
     fst (run (MASTUEquilibrium.__init__ ar (PStr s))) = Connect :: rest) /\
  (forall p : pulse,
     isinstance_int p = false ->
     connect ar = Ok tt ->
     (forall name, exists s, get ar name p = Ok s /\ dim0 s <> []) ->
     exists log self, run (MASTUEquilibrium.__init__ ar p) = (log, Ok self)).
Proof.
  repeat split.
  - intros n Hn. unfold MASTEquilibrium.__init__.
    rewrite run_lift_bind. cbn [pulse_ge].
    apply Z.leb_le in Hn. rewrite Hn. reflexivity.
  - intros x Hx. unfold MASTEquilibrium.__init__.
    rewrite run_lift_bind. cbn [pulse_ge]. unfold inject_Z.
    apply Qle_bool_iff in Hx. rewrite Hx. reflexivity.
  - intros n Hn. unfold MASTUEquilibrium.__init__. cbn [isinstance_int].
    rewrite run_lift_bind. cbn [pulse_lt].
    apply Z.ltb_lt in Hn. rewrite Hn. reflexivity.
  - intros x. by apply MASTU_init_past_guard.
  - intros s. by apply MASTU_init_past_guard.
  - apply MASTU_init_succeeds.
Qed.

Lemma constructors_guard_pulse_range_witness :
  run (MASTEquilibrium.__init__ square_archive (PInt 40000))
  = ([], Raise (ValueError MASTPulseTooLate)) /\
  run (MASTEquilibrium.__init__ square_archive (PFloat (80001 # 2)))
  = ([], Raise (ValueError MASTPulseTooLate)) /\
  run (MASTUEquilibrium.__init__ square_archive (PInt 39999))
  = ([], Raise (ValueError MASTUPulseTooEarly)) /\
  exists log self,
    run (MASTUEquilibrium.__init__ square_archive (PFloat 39999))
    = (log, Ok self).
Proof.
  pose proof (constructors_guard_pulse_range square_archive)
    as (Hint & Hfloat & Hearly & _ & _ & Hbuilt).
  split; [apply Hint; lia|].
  split; [apply Hfloat; vm_compute; discriminate|].
  split; [apply Hearly; lia|].
  apply Hbuilt; [reflexivity|reflexivity|].
  intros name. eexists. split; [reflexivity|]. simpl. discriminate.
Defined.

(** ** Further facts on the search and on the MAST polygons *)

(** The iteration bound of the binary search is never reached: any two
    bounds of at least max_idx - min_idx give the same index. *)
Lemma binsearch_left_fuel (a : list Q) (v : Q) (fuel fuel' lo hi : nat) :
  (hi - lo <= fuel)%nat -> (hi - lo <= fuel')%nat ->
  binsearch_left fuel a v lo hi = binsearch_left fuel' a v lo hi.
Proof.
  revert fuel' lo hi. induction fuel as [|fuel IH]; intros [|fuel'] lo hi H H'.
  - reflexivity.
  - rewrite binsearch_left_S. cbn [binsearch_left].
    destruct (lo <? hi)%nat eqn:E; [apply Nat.ltb_lt in E; lia|reflexivity].
  - rewrite binsearch_left_S. cbn [binsearch_left].
    destruct (lo <? hi)%nat eqn:E; [apply Nat.ltb_lt in E; lia|reflexivity].
  - rewrite !binsearch_left_S.
    destruct (lo <? hi)%nat eqn:E; [|reflexivity]. apply Nat.ltb_lt in E.
    pose proof (Nat.Div0.div_lt_upper_bound (hi - lo) 2 (hi - lo)).
    destruct (a !! (lo + (hi - lo) / 2)%nat); [|reflexivity].
    destruct (Qltb q v); apply IH; lia.
Qed.

(** On an ascending array np.searchsorted(a, v, side="left") is the
    insertion point: it lies within the array bounds, every sample before
    it is below v and no sample from it on is. *)
Theorem searchsorted_left_finds_insertion_point (a : list Q) (v : Q) :
  StronglySorted Qle a ->
  searchsorted_left a v = insertion_point a v /\
  (searchsorted_left a v <= length a)%nat /\
  splits_at a v (searchsorted_left a v).
Proof.
  intros Hs. split; [by apply searchsorted_left_insertion_point|].
  by apply searchsorted_left_splits.
Qed.

Lemma searchsorted_left_witness :
  searchsorted_left spec_samples (24 # 100) = insertion_point spec_samples (24 # 100) /\
  (searchsorted_left spec_samples (24 # 100) <= length spec_samples)%nat /\
  splits_at spec_samples (24 # 100) (searchsorted_left spec_samples (24 # 100)).
Proof.
  apply (searchsorted_left_finds_insertion_point spec_samples (24 # 100)).
  apply strictly_ascending_ascending, spec_samples_strictly_ascending.
Defined.


(** ** What holds of the polygons of MASTEquilibrium.time *)

Lemma process_polygon_later_differ (poly_r poly_z : list Q)
    (points : list (Q * Q)) :
  MASTEquilibrium._process_efit_lcfs_polygon poly_r poly_z = Ok points ->
  exists first later,
    points = first :: later /\
    Forall (fun p => vertex_eqb p first = false) later.
Proof.
  intros Hok.
  destruct (decide (length poly_r = length poly_z)) as [Hlen|Hne].
  - destruct (decide (2 <= length poly_r)%nat) as [Hn|Hn].
    + destruct poly_r as [|r0 rest_r], poly_z as [|z0 rest_z];
        simpl in Hlen, Hn; try discriminate; try lia.
      injection Hlen as Hlen.
      rewrite process_polygon_filter in Hok by (assumption || lia).
      injection Hok as <-. eexists _, _. split; [reflexivity|].
      eapply Forall_impl; [apply filter_Forall_true|].
      intros p Hp. unfold differs_from in Hp. by apply negb_true_iff.
    + unfold MASTEquilibrium._process_efit_lcfs_polygon in Hok.
      rewrite Hlen, Nat.eqb_refl in Hok. cbn [negb] in Hok.
      rewrite <- Hlen in Hok.
      assert (E : (length poly_r <? 2)%nat = true) by (apply Nat.ltb_lt; lia).
      rewrite E in Hok. discriminate.
  - unfold MASTEquilibrium._process_efit_lcfs_polygon in Hok.
    apply Nat.eqb_neq in Hne. rewrite Hne in Hok. discriminate.
Qed.

Lemma vertices_transpose (points : list (Q * Q)) :
  vertices (transpose points) = points.
Proof.
  unfold vertices, transpose. cbn [fst snd].
  induction points as [|[r z] points IH]; simpl; [reflexivity|].
  by rewrite IH.
Qed.

(** Every polygon of a time-slice that MASTEquilibrium.time returns has a
    first vertex, and no vertex after it is equal to it: with two vertices
    or more, the last one differs from the first. *)
Theorem MAST_time_polygons_drop_first_vertex_copies
    (self : MASTEquilibrium.t) (query : Q) (slice : EFITEquilibrium) :
  MASTEquilibrium.time self query = Ok slice ->
  (exists first later,
      vertices (efit_lcfs_polygon slice) = first :: later /\
      Forall (fun p => vertex_eqb p first = false) later) /\
  (exists first later,
      vertices (efit_limiter_polygon slice) = first :: later /\
      Forall (fun p => vertex_eqb p first = false) later).
Proof.
  unfold MASTEquilibrium.time. intros H.
  repeat match type of H with
         | (?r ≫= _) = Ok _ =>
             let E := fresh "E" in
             destruct r eqn:E; [rewrite bind_Ok in H|discriminate H]
         end.
  cbv zeta in H. 
  repeat match type of H with
         | (?r ≫= _) = Ok _ =>
             let E := fresh "E" in
             destruct r eqn:E; [rewrite bind_Ok in H|discriminate H]
         end.
  injection H as <-. cbn [efit_lcfs_polygon efit_limiter_polygon].
  rewrite !vertices_transpose.
  split; eapply process_polygon_later_differ; eassumption.
Qed.

Lemma MAST_time_polygons_witness :
  exists log self slice,
    run (MASTEquilibrium.__init__ square_archive (PInt 30000)) = (log, Ok self)
    /\ MASTEquilibrium.time self 1 = Ok slice
    /\ (exists first later,
          vertices (efit_lcfs_polygon slice) = first :: later /\
          Forall (fun p => vertex_eqb p first = false) later)
    /\ (exists first later,
          vertices (efit_limiter_polygon slice) = first :: later /\
          Forall (fun p => vertex_eqb p first = false) later).
Proof.
  eexists _, _, _. split; [vm_compute; reflexivity|].
  match goal with
  | |- MASTEquilibrium.time ?self ?q = Ok ?slice /\ _ =>
      assert (Ht : MASTEquilibrium.time self q = Ok slice)
        by (vm_compute; reflexivity);
      split;
        [exact Ht
        |exact (MAST_time_polygons_drop_first_vertex_copies self q _ Ht)]
  end.
Defined.

(** * Further properties of the code *)

(** ** np.argmin and the selection of MASTUEquilibrium.time *)





(** ** _find_nearest on any array *)

(** Whenever _find_nearest returns, the query lies within
    [min(array), max(array)] and the index returned is an index of the
    array: the read time_slices[index] that follows in time() cannot fail. *)
Theorem find_nearest_returns_valid_index (array : list Q) (value : Q) (i : nat) :
  MASTEquilibrium._find_nearest array value = Ok i ->
  in_range array value /\ (i < length array)%nat.
Proof.
  unfold MASTEquilibrium._find_nearest. intros H.
  destruct (np_min array) as [lo|] eqn:Hmin; [rewrite bind_Ok in H|discriminate].
  destruct (Qltb value lo) eqn:Hlo; [discriminate|].
  destruct (np_max array) as [hi|] eqn:Hmax; [rewrite bind_Ok in H|discriminate].
  destruct (Qltb hi value) eqn:Hhi; [discriminate|]. cbv zeta in H.
  destruct (getitem array (searchsorted_left array value)) as [x|] eqn:Hx;
    [rewrite bind_Ok in H|discriminate].
  destruct (getitem array (searchsorted_left array value + 1)) as [y|] eqn:Hy;
    [rewrite bind_Ok in H|discriminate].
  apply getitem_Ok, lookup_lt_Some in Hx, Hy.
  apply Qltb_ge in Hlo, Hhi. split; [by exists lo, hi|].
  destruct (Qltb _ _); injection H as <-; assumption.
Qed.

Lemma find_nearest_valid_index_witness :
  in_range spec_samples (14 # 100) /\ (2 < length spec_samples)%nat.
Proof.
  exact (find_nearest_returns_valid_index spec_samples (14 # 100) 2 eq_refl).
Defined.

(** ** The last interval of the time base in MASTEquilibrium.time *)

Lemma insertion_point_after_lower (earlier : list Q) (final query : Q) :
  (forall s, s ∈ earlier -> (s < query)%Q) -> (query <= final)%Q ->
  insertion_point (earlier ++ [final]) query = length earlier.
Proof.
  intros Hlow Hq. induction earlier as [|s earlier IH]; simpl.
  - apply Qltb_ge in Hq. by rewrite Hq.
  - assert (Hs : Qltb s query = true)
      by (apply Qltb_lt, Hlow, list_elem_of_here).
    rewrite Hs, IH; [reflexivity|].
    intros s' Hs'. by apply Hlow, list_elem_of_further.
Qed.

Lemma find_nearest_at_last_index (array : list Q) (value : Q) :
  StronglySorted Qle array -> in_range array value ->
  S (insertion_point array value) = length array ->
  MASTEquilibrium._find_nearest array value = Raise IndexError.
Proof.
  intros Hs Hr Hlast. rewrite find_nearest_in_range by assumption. cbv zeta.
  rewrite searchsorted_left_insertion_point by assumption.
  rewrite !getitem_lookup.
  destruct (array !! insertion_point array value); [rewrite bind_Ok|reflexivity].
  rewrite (lookup_ge_None_2 array (insertion_point array value + 1)) by lia.
  reflexivity.
Qed.

Lemma np_max_strictly_ascending (earlier : list Q) (final : Q) :
  strictly_ascending (earlier ++ [final]) ->
  np_max (earlier ++ [final]) = Ok final.
Proof.
  intros Hs. destruct (np_max (earlier ++ [final])) as [hi|e] eqn:Hmax.
  - destruct (np_max_spec _ _ Hmax) as [Hin Hall]. f_equal.
    apply elem_of_app in Hin as [Hin|Hin].
    + assert (Hlt : (hi < final)%Q).
      { apply (StronglySorted_app_1_elem_of _ earlier [final]); auto.
        apply list_elem_of_here. }
      assert (final <= hi)%Q
        by (apply Hall, elem_of_app; right; apply list_elem_of_here).
      lra.
    + apply elem_of_cons in Hin as [->|Hin]; [reflexivity|].
      by apply elem_of_nil in Hin.
  - destruct earlier; discriminate.
Qed.

(** On a strictly ascending time base MASTEquilibrium.time never returns a
    slice for a query above every sample but the last, the largest sample
    time included: it raises the out-of-range ValueError although the query
    does not exceed the maximum it reports. *)
Theorem MAST_time_rejects_last_interval (ar : Archive) (p : pulse)
    (log : list event) (self : MASTEquilibrium.t)
    (earlier : list Q) (final query : Q) :
  run (MASTEquilibrium.__init__ ar p) = (log, Ok self) ->
  MASTEquilibrium.time_slices self = earlier ++ [final] ->
  strictly_ascending (earlier ++ [final]) ->
  (forall s, s ∈ earlier -> (s < query)%Q) -> (query <= final)%Q ->
  exists lo,
    np_min (earlier ++ [final]) = Ok lo /\
    MASTEquilibrium.time self query
    = Raise (ValueError (OutsideRange lo final)).
Proof.
  intros Hinit Hts Hs Hlow Hq.
  destruct (MAST_init_time_range _ _ _ _ Hinit) as [Hmin Hmax].
  rewrite Hts in Hmin, Hmax.
  rewrite (np_max_strictly_ascending _ _ Hs) in Hmax. injection Hmax as Hmax.
  exists (fst (MASTEquilibrium.time_range self)). split; [assumption|].
  assert (Hfind : MASTEquilibrium._find_nearest (earlier ++ [final]) query
                  = Raise IndexError).
  { destruct (Qlt_le_dec query (fst (MASTEquilibrium.time_range self)))
      as [Hout|Hin].
    - eapply find_nearest_outside; eauto using np_max_strictly_ascending.
    - apply find_nearest_at_last_index.
      + by apply strictly_ascending_ascending.
      + exists (fst (MASTEquilibrium.time_range self)), final.
        auto using np_max_strictly_ascending.
      + rewrite insertion_point_after_lower by assumption.
        rewrite length_app. simpl. lia. }
  unfold MASTEquilibrium.time. rewrite Hts, Hfind, bind_Raise.
  cbn [except_IndexError]. rewrite <- Hmax. reflexivity.
Qed.

Lemma MAST_time_rejects_last_interval_witness :
  exists log self lo,
    run (MASTEquilibrium.__init__ square_archive (PInt 30000)) = (log, Ok self)
    /\ np_min ([0; 2] ++ [4])%Q = Ok lo
    /\ MASTEquilibrium.time self 3 = Raise (ValueError (OutsideRange lo 4)).
Proof.
  eexists _, _. 
  assert (Hs : strictly_ascending ([0; 2] ++ [4])%Q) by repeat constructor.
  assert (Hlow : forall s : Q, s ∈ [0; 2]%Q -> (s < 3)%Q).
  { intros s Hin. apply elem_of_cons in Hin as [->|Hin]; [reflexivity|].
    apply elem_of_cons in Hin as [->|Hin]; [reflexivity|].
    by apply elem_of_nil in Hin. }
  match goal with
  | |- exists lo, run ?c = (?l, Ok ?s) /\ _ =>
      assert (Hrun : run c = (l, Ok s)) by (vm_compute; reflexivity);
      destruct (MAST_time_rejects_last_interval _ _ _ s [0; 2]%Q 4 3
                  Hrun eq_refl Hs Hlow) as (lo & Hlo & Hraise);
        [vm_compute; discriminate|];
      exists lo; split; [exact Hrun|split; [exact Hlo|exact Hraise]]
  end.
Defined.

(** ** The sanitiser applied twice, and what it keeps *)

Lemma zip_fst_snd (points : list (Q * Q)) :
  zip (map fst points) (map snd points) = points.
Proof. apply vertices_transpose. Qed.

Lemma filter_sublist {A : Type} (f : A -> bool) (l : list A) :
  sublist (List.filter f l) l.
Proof.
  induction l as [|x l IH]; simpl; [constructor|].
  destruct (f x); by constructor.
Qed.

(** Feeding the sanitiser its own output changes nothing, as long as the
    output still holds the two points that the sanitiser asks for; with a
    single point left, the second pass raises the too-few-points error. *)
Theorem sanitiser_idempotent (poly_r poly_z : list Q) (points : list (Q * Q)) :
  MASTEquilibrium._process_efit_lcfs_polygon poly_r poly_z = Ok points ->
  MASTEquilibrium._process_efit_lcfs_polygon (map fst points) (map snd points)
  = if (2 <=? length points)%nat then Ok points
    else Raise (ValueError LessThan2Points).
Proof.
  intros Hok.
  destruct (process_polygon_later_differ _ _ _ Hok)
    as ([r0 z0] & later & -> & Hlater).
  cbn [map fst snd length].
  destruct later as [|q later].
  - reflexivity.
  - rewrite process_polygon_filter
      by (rewrite ?length_map; simpl; try reflexivity; lia).
    rewrite zip_fst_snd, filter_all_true; [reflexivity|].
    eapply Forall_impl; [exact Hlater|].
    intros p Hp. unfold differs_from. by apply negb_true_iff.
Qed.

Lemma sanitiser_idempotent_witness :
  MASTEquilibrium._process_efit_lcfs_polygon
    (map fst [(0, 0); (1, 0); (1, 1); (0, 1)]%Q)
    (map snd [(0, 0); (1, 0); (1, 1); (0, 1)]%Q)
  = if (2 <=? length [(0, 0); (1, 0); (1, 1); (0, 1)]%Q)%nat
    then Ok [(0, 0); (1, 0); (1, 1); (0, 1)]%Q
    else Raise (ValueError LessThan2Points).
Proof.
  exact (sanitiser_idempotent square_r square_z _ eq_refl).
Defined.

(** The sanitiser only removes points: its output is the input with some
    points left out, the others in their order, so it has no more points
    than the input and each of them is an input point. *)
Theorem sanitiser_output_sublist (poly_r poly_z : list Q)
    (points : list (Q * Q)) :
  MASTEquilibrium._process_efit_lcfs_polygon poly_r poly_z = Ok points ->
  sublist points (zip poly_r poly_z) /\
  (1 <= length points <= length poly_r)%nat.
Proof.
  intros Hok.
  destruct (decide (length poly_r = length poly_z)) as [Hlen|Hne].
  - destruct (decide (2 <= length poly_r)%nat) as [Hn|Hn].
    + destruct poly_r as [|r0 rest_r], poly_z as [|z0 rest_z];
        simpl in Hlen, Hn; try discriminate; try lia.
      injection Hlen as Hlen.
      rewrite process_polygon_filter in Hok by (assumption || lia).
      injection Hok as <-. split.
      * simpl. constructor. apply filter_sublist.
      * pose proof (filter_length_bound (differs_from (r0, z0))
                      (zip rest_r rest_z)) as Hb.
        rewrite zip_length_eq in Hb by assumption. simpl. lia.
    + unfold MASTEquilibrium._process_efit_lcfs_polygon in Hok.
      rewrite Hlen, Nat.eqb_refl in Hok. cbn [negb] in Hok.
      rewrite <- Hlen in Hok.
      assert (E : (length poly_r <? 2)%nat = true) by (apply Nat.ltb_lt; lia).
      rewrite E in Hok. discriminate.
  - unfold MASTEquilibrium._process_efit_lcfs_polygon in Hok.
    apply Nat.eqb_neq in Hne. rewrite Hne in Hok. discriminate.
Qed.

Lemma sanitiser_output_sublist_witness :
  sublist [(0, 0); (1, 0); (1, 1); (0, 1)]%Q (zip square_r square_z) /\
  (1 <= length [(0, 0); (1, 0); (1, 1); (0, 1)]%Q <= length square_r)%nat.
Proof.
  exact (sanitiser_output_sublist square_r square_z _ eq_refl).
Defined.

(** ** Opening a polygon in MASTUEquilibrium.time *)

Lemma Qeq_bool_refl (x : Q) : Qeq_bool x x = true.
Proof. apply Qeq_bool_iff. reflexivity. Qed.

Lemma take_app_last {A : Type} (l : list A) (x : A) :
  take (length (l ++ [x]) - 1) (l ++ [x]) = l.
Proof.
  rewrite length_app. simpl.
  replace (length l + 1 - 1)%nat with (length l) by lia.
  by rewrite take_app_length.
Qed.

Lemma zip_snoc_inv {A B : Type} (l : list A) (k : list B)
    (init : list (A * B)) (p : A * B) :
  length l = length k -> zip l k = init ++ [p] ->
  l = map fst init ++ [fst p] /\ k = map snd init ++ [snd p].
Proof.
  intros Hlen Hzip.
  assert (Hl : l = map fst (zip l k)) by (symmetry; apply fst_zip; lia).
  assert (Hk : k = map snd (zip l k)) by (symmetry; apply snd_zip; lia).
  rewrite Hzip, map_app in Hl, Hk. auto.
Qed.

Lemma open_polygon_of_vertices (poly_r poly_z : list Q)
    (init : list (Q * Q)) (first final : Q * Q) :
  length poly_r = length poly_z ->
  zip poly_r poly_z = init ++ [final] ->
  head (init ++ [final]) = Some first ->
  MASTUEquilibrium.open_polygon poly_r poly_z
  = Ok (if vertex_eqb first final then transpose init
        else (poly_r, poly_z)).
Proof.
  intros Hlen Hzip Hhead.
  destruct (zip_snoc_inv _ _ _ _ Hlen Hzip) as [Hr Hz].
  unfold MASTUEquilibrium.open_polygon, np_stack.
  rewrite Hlen, Nat.eqb_refl, bind_Ok.
  assert (Hfirst : column (poly_r, poly_z) 0 = Ok first).
  { unfold column. cbn [fst snd]. rewrite !getitem_lookup.
    destruct init as [|p init]; simpl in Hhead; injection Hhead as <-;
      rewrite Hr, Hz; [by destruct final|by destruct p]. }
  assert (Hlast : last_column (poly_r, poly_z) = Ok final).
  { unfold last_column, column. cbn [fst snd].
    rewrite Hr at 1. rewrite length_app, length_map. simpl.
    replace (length init + 1)%nat with (S (length init)) by lia.
    rewrite !getitem_lookup, Hr, Hz.
    rewrite !lookup_app_r by (rewrite length_map; lia).
    rewrite !length_map, Nat.sub_diag. simpl. by destruct final. }
  rewrite Hfirst, bind_Ok, Hlast, bind_Ok.
  destruct (vertex_eqb first final); [|reflexivity].
  unfold drop_last_column, transpose. cbn [fst snd]. rewrite Hr, Hz.
  by rewrite !take_app_last.
Qed.

(** The outcome of the stack-and-open step in every case: arrays of unequal
    length are a ValueError of np.stack, two empty arrays an IndexError of
    the read of column 0, and otherwise the polygon comes back, without its
    last column when that column equals the first and unchanged when not. *)
Theorem MASTU_open_polygon_cases (poly_r poly_z : list Q) :
  (length poly_r <> length poly_z ->
   MASTUEquilibrium.open_polygon poly_r poly_z
   = Raise (ValueError StackShapeMismatch)) /\
  (poly_r = [] -> poly_z = [] ->
   MASTUEquilibrium.open_polygon poly_r poly_z = Raise IndexError) /\
  (forall (init : list (Q * Q)) (first final : Q * Q),
     length poly_r = length poly_z ->
     zip poly_r poly_z = init ++ [final] ->
     head (init ++ [final]) = Some first ->
     MASTUEquilibrium.open_polygon poly_r poly_z
     = Ok (if vertex_eqb first final then transpose init
           else (poly_r, poly_z))).
Proof.
  split; [|split].
  - intros Hne. unfold MASTUEquilibrium.open_polygon, np_stack.
    apply Nat.eqb_neq in Hne. rewrite Hne. reflexivity.
  - intros -> ->. reflexivity.
  - intros init first final. apply open_polygon_of_vertices.
Qed.

Lemma MASTU_open_polygon_cases_witness :
  MASTUEquilibrium.open_polygon [0; 1]%Q [0]%Q
  = Raise (ValueError StackShapeMismatch) /\
  MASTUEquilibrium.open_polygon [] [] = Raise IndexError /\
  MASTUEquilibrium.open_polygon square_r square_z
  = Ok (if vertex_eqb (0, 0)%Q (0, 0)%Q
        then transpose [(0, 0); (1, 0); (1, 1); (0, 1)]%Q
        else (square_r, square_z)).
Proof.
  split; [|split].
  - apply (proj1 (MASTU_open_polygon_cases [0; 1]%Q [0]%Q)). simpl. lia.
  - by apply (proj1 (proj2 (MASTU_open_polygon_cases [] []))).
  - by apply (proj2 (proj2 (MASTU_open_polygon_cases square_r square_z))
                [(0, 0); (1, 0); (1, 1); (0, 1)]%Q (0, 0)%Q (0, 0)%Q).
Defined.

(** A polygon closed by one copy of its first vertex comes back open: for a
    first vertex, interior vertices the last of which differs from the
    first, and a closing copy of the first vertex, the result is the first
    vertex and the interior, and its last vertex is not the first. *)
Theorem MASTU_open_polygon_opens_simply_closed (poly_r poly_z : list Q)
    (first closing final : Q * Q) (interior : list (Q * Q)) :
  length poly_r = length poly_z ->
  zip poly_r poly_z = first :: interior ++ [final] ++ [closing] ->
  vertex_eqb first closing = true ->
  vertex_eqb first final = false ->
  exists polygon,
    MASTUEquilibrium.open_polygon poly_r poly_z = Ok polygon /\
    vertices polygon = first :: interior ++ [final] /\
    column polygon 0 = Ok first /\
    last_column polygon = Ok final.
Proof.
  intros Hlen Hzip Hclosed Hopen.
  pose proof (open_polygon_of_vertices poly_r poly_z
                (first :: interior ++ [final]) first closing Hlen) as Hcase.
  rewrite Hclosed in Hcase. eexists. split.
  - apply Hcase; [|reflexivity]. rewrite Hzip.
    by rewrite app_comm_cons, app_assoc.
  - rewrite vertices_transpose. split; [reflexivity|].
    unfold column, last_column, transpose. cbn [fst snd map length].
    rewrite !map_app, length_app, length_map. cbn [map length].
    rewrite !getitem_lookup. cbn [lookup list_lookup].
    split; [by destruct first|].
    replace (length interior + 1)%nat with (S (length interior)) by lia.
    unfold column. cbn [fst snd]. rewrite !getitem_lookup, !app_comm_cons.
    rewrite !list_lookup_middle by (simpl; by rewrite length_map).
    rewrite !bind_Ok. by destruct final.
Qed.

Lemma MASTU_open_polygon_opens_square_witness :
  exists polygon,
    MASTUEquilibrium.open_polygon square_r square_z = Ok polygon /\
    vertices polygon = (0, 0)%Q :: [(1, 0); (1, 1)]%Q ++ [(0, 1)%Q] /\
    column polygon 0 = Ok (0, 0)%Q /\
    last_column polygon = Ok (0, 1)%Q.
Proof.
  exact (MASTU_open_polygon_opens_simply_closed square_r square_z
           (0, 0)%Q (0, 0)%Q (0, 1)%Q [(1, 0); (1, 1)]%Q
           eq_refl eq_refl eq_refl eq_refl).
Defined.

(** A polygon of a single vertex is its own closing vertex: the step
    returns a polygon with no vertex at all. *)
Theorem MASTU_open_polygon_single_vertex (r0 z0 : Q) :
  MASTUEquilibrium.open_polygon [r0] [z0] = Ok ([], []).
Proof.
  unfold MASTUEquilibrium.open_polygon, np_stack. cbn [length Nat.eqb].
  rewrite bind_Ok. unfold column, last_column. cbn [fst snd length].
  unfold column. cbn [fst snd getitem lookup list_lookup].
  rewrite !bind_Ok. unfold vertex_eqb. cbn [fst snd].
  rewrite !Qeq_bool_refl. reflexivity.
Qed.

(** ** The archive traffic of the constructors *)

Ltac split_io :=
  repeat match goal with
         | |- context [match ?r with Ok _ => _ | Raise _ => _ end] =>
             destruct r
         | |- context [if ?b then _ else _] => destruct b
         end.

(** MASTEquilibrium.__init__ queries the archive in one fixed order and
    stops at the first query that fails: the log of a run is always an
    initial part of the full sequence of 25 signals, and it is the whole
    sequence whenever an object is built. *)
Theorem MAST_init_queries_in_order (ar : Archive) (p : pulse) :
  (exists rest,
     fst (run (MASTEquilibrium.__init__ ar p)) ++ rest
     = full_log MAST_signal_names p) /\
  (forall self,
     snd (run (MASTEquilibrium.__init__ ar p)) = Ok self ->
     fst (run (MASTEquilibrium.__init__ ar p)) = full_log MAST_signal_names p).
Proof.
  unfold MASTEquilibrium.__init__. unfold_io.
  split_io; cbn [fst snd app];
    (split; [eexists; reflexivity|intros self Hself; discriminate || reflexivity]).
Qed.

(** The same for MASTUEquilibrium.__init__ and its 22 signals. *)
Theorem MASTU_init_queries_in_order (ar : Archive) (p : pulse) :
  (exists rest,
     fst (run (MASTUEquilibrium.__init__ ar p)) ++ rest
     = full_log MASTU_signal_names p) /\
  (forall self,
     snd (run (MASTUEquilibrium.__init__ ar p)) = Ok self ->
     fst (run (MASTUEquilibrium.__init__ ar p)) = full_log MASTU_signal_names p).
Proof.
  unfold MASTUEquilibrium.__init__. unfold_io.
  split_io; cbn [fst snd app];
    (split; [eexists; reflexivity|intros self Hself; discriminate || reflexivity]).
Qed.

(** ** What a constructed object holds *)

(** An object built by MASTEquilibrium.__init__ holds the archive's answers
    under the signal names of the source: its time base is the first
    dimension of the flux signal, its time_range the minimum and maximum of
    that time base, and the polygon and plasma-time attributes are the
    signals fetched under their names. *)
Theorem MAST_init_attributes (ar : Archive) (p : pulse) (log : list event)
    (self : MASTEquilibrium.t) :
  run (MASTEquilibrium.__init__ ar p) = (log, Ok self) ->
  (exists psi, get ar "efm_psi(r,z)" p = Ok psi /\
               MASTEquilibrium.time_slices self = dim0 psi) /\
  np_min (MASTEquilibrium.time_slices self)
  = Ok (fst (MASTEquilibrium.time_range self)) /\
  np_max (MASTEquilibrium.time_slices self)
  = Ok (snd (MASTEquilibrium.time_range self)) /\
  get ar "efm_ip_times" p = Ok (MASTEquilibrium.plasma_times self) /\
  get ar "efm_lcfs(r)_(c)" p = Ok (MASTEquilibrium.lcfs_poly_r self) /\
  get ar "efm_lcfs(z)_(c)" p = Ok (MASTEquilibrium.lcfs_poly_z self) /\
  get ar "efm_lcfs(n)_(c)" p = Ok (MASTEquilibrium.nlcfs self) /\
  get ar "efm_limiter(r)" p = Ok (MASTEquilibrium.limiter_poly_r self) /\
  get ar "efm_limiter(z)" p = Ok (MASTEquilibrium.limiter_poly_z self) /\
  get ar "efm_limiter(n)" p = Ok (MASTEquilibrium.nlimiter self).
Proof.
  unfold MASTEquilibrium.__init__. unfold_io.
  intros H. repeat step_io H.
  injection H as _ <-. cbn.
  split; [eexists; split; reflexivity|].
  repeat split; assumption || reflexivity.
Qed.

Lemma MAST_init_attributes_witness :
  exists log self,
    run (MASTEquilibrium.__init__ square_archive (PInt 30000)) = (log, Ok self)
    /\ MASTEquilibrium.time_slices self = [0; 2; 4]%Q
    /\ MASTEquilibrium.time_range self = (0, 4)%Q
    /\ get square_archive "efm_ip_times" (PInt 30000)
       = Ok (MASTEquilibrium.plasma_times self).
Proof.
  eexists _, _.
  match goal with
  | |- run ?c = (?l, Ok ?s) /\ _ =>
      assert (Hrun : run c = (l, Ok s)) by (vm_compute; reflexivity);
      pose proof (MAST_init_attributes _ _ _ _ Hrun)
        as (_ & _ & _ & Htimes & _);
      split; [exact Hrun|]
  end.
  split; [reflexivity|]. split; [reflexivity|]. exact Htimes.
Defined.

(** The same for MASTUEquilibrium.__init__. *)
Theorem MASTU_init_attributes (ar : Archive) (p : pulse) (log : list event)
    (self : MASTUEquilibrium.t) :
  run (MASTUEquilibrium.__init__ ar p) = (log, Ok self) ->
  (exists psi, get ar "/epm/output/profiles2D/poloidalFlux" p = Ok psi /\
               MASTUEquilibrium.time_slices self = dim0 psi) /\
  np_min (MASTUEquilibrium.time_slices self)
  = Ok (fst (MASTUEquilibrium.time_range self)) /\
  np_max (MASTUEquilibrium.time_slices self)
  = Ok (snd (MASTUEquilibrium.time_range self)) /\
  get ar "/epm/output/separatrixGeometry/rBoundary" p
  = Ok (MASTUEquilibrium.lcfs_poly_r self) /\
  get ar "/epm/output/separatrixGeometry/zBoundary" p
  = Ok (MASTUEquilibrium.lcfs_poly_z self) /\
  get ar "/epm/input/limiter/rValues" p
  = Ok (MASTUEquilibrium.limiter_poly_r self) /\
  get ar "/epm/input/limiter/zValues" p
  = Ok (MASTUEquilibrium.limiter_poly_z self).
Proof.
  unfold MASTUEquilibrium.__init__. unfold_io.
  intros H. repeat step_io H;
    (injection H as _ <-; cbn;
     split; [eexists; split; reflexivity|];
     repeat split; assumption || reflexivity).
Qed.

Lemma MASTU_init_attributes_witness :
  exists log self,
    run (MASTUEquilibrium.__init__ square_archive (PInt 45000)) = (log, Ok self)
    /\ MASTUEquilibrium.time_slices self = [0; 2; 4]%Q
    /\ MASTUEquilibrium.time_range self = (0, 4)%Q
    /\ get square_archive "/epm/input/limiter/rValues" (PInt 45000)
       = Ok (MASTUEquilibrium.limiter_poly_r self).
Proof.
  eexists _, _.
  match goal with
  | |- run ?c = (?l, Ok ?s) /\ _ =>
      assert (Hrun : run c = (l, Ok s)) by (vm_compute; reflexivity);
      pose proof (MASTU_init_attributes _ _ _ _ Hrun)
        as (_ & _ & _ & _ & _ & Hlimiter & _);
      split; [exact Hrun|]
  end.
  split; [reflexivity|]. split; [reflexivity|]. exact Hlimiter.
Defined.

(** ** An empty time base *)

(** No object is built on an empty time base. MASTUEquilibrium.__init__
    raises the ValueError of min() right after its first query;
    MASTEquilibrium.__init__ raises it only after all 25 queries have been
    answered. *)
Theorem empty_time_base_rejected (ar : Archive) (n : Z) :
  connect ar = Ok tt ->
  (forall name, exists s, get ar name (PInt n) = Ok s /\ dim0 s = []) ->
  ((40000 <= n)%Z ->
   run (MASTUEquilibrium.__init__ ar (PInt n))
   = ([Connect; Get "/epm/output/profiles2D/poloidalFlux" (PInt n)],
      Raise (ValueError ZeroSizeReduction))) /\
  ((n < 40000)%Z ->
   run (MASTEquilibrium.__init__ ar (PInt n))
   = (full_log MAST_signal_names (PInt n),
      Raise (ValueError ZeroSizeReduction))).
Proof.
  intros Hconnect Hget. split; intros Hn.
  - unfold MASTUEquilibrium.__init__. cbn [isinstance_int pulse_lt].
    unfold_io. apply Z.ltb_ge in Hn. rewrite Hn, Hconnect.
    destruct (Hget "/epm/output/profiles2D/poloidalFlux"%string)
      as (psi & -> & ->).
    reflexivity.
  - unfold MASTEquilibrium.__init__. cbn [pulse_ge].
    unfold_io. assert (Hg : (40000 <=? n)%Z = false) by (apply Z.leb_gt; lia).
    rewrite Hg, Hconnect.
    destruct (Hget "efm_psi(r,z)"%string) as (psi & -> & ->).
    repeat match goal with
           | |- context [get ar ?name (PInt n)] =>
               let s := fresh "s" in
               let Hs := fresh "Hs" in
               destruct (Hget name) as (s & Hs & _); rewrite Hs
           end.
    reflexivity.
Qed.

Lemma empty_time_base_rejected_witness :
  run (MASTUEquilibrium.__init__ (sample_archive [] square_r square_z)
         (PInt 45000))
  = ([Connect; Get "/epm/output/profiles2D/poloidalFlux" (PInt 45000)],
     Raise (ValueError ZeroSizeReduction)) /\
  run (MASTEquilibrium.__init__ (sample_archive [] square_r square_z)
         (PInt 30000))
  = (full_log MAST_signal_names (PInt 30000),
     Raise (ValueError ZeroSizeReduction)).
Proof.
  split.
  - apply (proj1 (empty_time_base_rejected
                    (sample_archive [] square_r square_z) 45000 eq_refl
                    (fun name => ex_intro _ _ (conj eq_refl eq_refl)))).
    lia.
  - apply (proj2 (empty_time_base_rejected
                    (sample_archive [] square_r square_z) 30000 eq_refl
                    (fun name => ex_intro _ _ (conj eq_refl eq_refl)))).
    lia.
Defined.

(** ** The slits and foils of a bolometer camera *)


Lemma in_camera_Ok (camera_name id camera : string) :
  id_camera id = Ok camera ->
  in_camera camera_name id = String.eqb camera camera_name.
Proof. unfold in_camera. by intros ->. Qed.

Lemma collect_slits_of_camera (camera_name : string) (slits : list uda_slit)
    (d d' : slit_dict) :
  slits_of_camera camera_name d ->
  collect_slits camera_name slits d = Ok d' ->
  slits_of_camera camera_name d'.
Proof.
  revert d. induction slits as [|slit rest IH]; intros d Hd; simpl.
  - by intros [= <-].
  - destruct (id_camera (slit_id slit)) as [camera|] eqn:Hid;
      [rewrite bind_Ok|discriminate].
    destruct (String.eqb camera camera_name) eqn:E; cbn [negb].
    + apply IH. constructor; [|exact Hd]. cbn [fst snd bs_slit_id].
      split; [reflexivity|]. by rewrite (in_camera_Ok _ _ _ Hid).
    + by apply IH.
Qed.

Lemma dict_getitem_of_camera (camera_name : string) (d : slit_dict)
    (key : string) (slit : BolometerSlit) :
  slits_of_camera camera_name d -> dict_getitem d key = Ok slit ->
  bs_slit_id slit = key /\ in_camera camera_name key = true.
Proof.
  induction 1 as [|[k v] d [Hid Hin] Hd IH]; simpl; [discriminate|].
  destruct (String.eqb k key) eqn:E; [|exact IH].
  apply String.eqb_eq in E. subst k. by intros [= <-].
Qed.

Lemma collect_foils_detectors (camera_name : string) (foils : list uda_foil)
    (d : slit_dict) (acc out : list BolometerFoil) :
  slits_of_camera camera_name d ->
  collect_foils camera_name foils d acc = Ok out ->
  exists new,
    out = acc ++ new /\
    Forall2 (detector_of camera_name)
      (List.filter (fun foil => in_camera camera_name (foil_id foil)) foils)
      new.
Proof.
  intros Hd. revert acc.
  induction foils as [|foil rest IH]; intros acc; simpl.
  - intros [= <-]. exists []. by rewrite app_nil_r.
  - destruct (id_camera (foil_id foil)) as [camera|] eqn:Hid;
      [rewrite bind_Ok|discriminate].
    rewrite (in_camera_Ok _ _ _ Hid).
    destruct (String.eqb camera camera_name) eqn:E; cbn [negb].
    + destruct (dict_getitem d (foil_slit_id foil)) as [slit|] eqn:Hslit;
        [rewrite bind_Ok|discriminate].
      intros Hout. destruct (IH _ Hout) as (new & -> & Hnew).
      destruct (dict_getitem_of_camera _ _ _ _ Hd Hslit) as [Hsid Hin].
      eexists (_ :: new). split; [by rewrite <- app_assoc|].
      constructor; [|exact Hnew]. by repeat split.
    + apply IH.
Qed.

(** Whenever the foil detectors of a camera are built, there is exactly one
    detector for each foil of the geometry data whose ID names the camera
    (the comparison is case-sensitive), in the order of the data; it carries
    the foil's ID, centre point and size, and its slit is the slit that the
    foil refers to, which is a slit of the same camera. *)
Theorem camera_detectors_select_camera (camera_name : string)
    (bolometers : bolometer_geometry) (detectors : list BolometerFoil) :
  camera_detectors camera_name bolometers = Ok detectors ->
  exists foils,
    except_KeyError (getkey (foils_data bolometers))
                    (getkey (data_foils_data bolometers)) = Ok foils /\
    Forall2 (detector_of camera_name)
      (List.filter (fun foil => in_camera camera_name (foil_id foil)) foils)
      detectors.
Proof.
  unfold camera_detectors. intros H.
  destruct (except_KeyError (getkey (slits_data bolometers)) _) as [slits|];
    [rewrite bind_Ok in H|discriminate].
  destruct (collect_slits camera_name slits []) as [d|] eqn:Hslits;
    [rewrite bind_Ok in H|discriminate].
  destruct (except_KeyError (getkey (foils_data bolometers)) _) as [foils|];
    [rewrite bind_Ok in H|discriminate].
  exists foils. split; [reflexivity|].
  assert (Hd : slits_of_camera camera_name d)
    by (eapply collect_slits_of_camera; [constructor|exact Hslits]).
  destruct (collect_foils_detectors _ _ _ _ _ Hd H) as (new & -> & Hnew).
  exact Hnew.
Qed.

Lemma camera_detectors_select_camera_witness :
  exists detectors foils,
    camera_detectors "Outer" sample_geometry = Ok detectors /\
    except_KeyError (getkey (foils_data sample_geometry))
                    (getkey (data_foils_data sample_geometry)) = Ok foils /\
    map bf_detector_id detectors
    = ["MAST-U SXDL - Outer CH1"; "MAST-U SXDL - Outer CH2"]%string /\
    Forall2 (detector_of "Outer")
      (List.filter (fun foil => in_camera "Outer" (foil_id foil)) foils)
      detectors.
Proof.
  eexists _, _.
  match goal with
  | |- camera_detectors ?n ?b = Ok ?d /\ _ =>
      assert (H : camera_detectors n b = Ok d) by (vm_compute; reflexivity);
      destruct (camera_detectors_select_camera n b _ H) as (foils & Hf & Hsel)
  end.
  split; [exact H|]. split; [reflexivity|]. split; [reflexivity|].
  injection Hf as <-. exact Hsel.
Defined.




Lemma collect_slits_well_formed (camera_name : string) (slits : list uda_slit)
    (d : slit_dict) :
  Forall (fun slit => exists camera, id_camera (slit_id slit) = Ok camera)
         slits ->
  exists d', collect_slits camera_name slits d = Ok d' /\
    forall key,
      (exists slit, dict_getitem d' key = Ok slit) ->
      (exists slit, dict_getitem d key = Ok slit) \/
      (exists slit, slit ∈ slits /\ slit_id slit = key /\
                    in_camera camera_name key = true).
Proof.
  intros Hwf. revert d.
  induction Hwf as [|slit rest [camera Hid] Hwf IH]; intros d; simpl.
  - exists d. split; [reflexivity|]. auto.
  - rewrite Hid, bind_Ok.
    destruct (String.eqb camera camera_name) eqn:E; cbn [negb].
    + destruct (IH (dict_set (slit_id slit)
                      {| bs_basis_x := uda_to_vector (slit_basis_1 slit);
                         bs_basis_y := uda_to_vector (slit_basis_2 slit);
                         bs_centre_point := uda_to_point (slit_centre_point slit);
                         bs_dx := slit_width slit;
                         bs_dy := slit_height slit;
                         bs_curvature_radius :=
                           match slit_curvature_radius slit with
                           | Some radius => radius
                           | None => 0%Q
                           end;
                         bs_slit_id := slit_id slit |} d))
        as (d' & Hd' & Hkeys).
      exists d'. split; [exact Hd'|]. intros key Hkey.
      destruct (Hkeys key Hkey) as [[s Hs]|(s & Hin & Hsid & Hcam)].
      * simpl in Hs. destruct (String.eqb (slit_id slit) key) eqn:Ek.
        -- apply String.eqb_eq in Ek. right. exists slit.
           split; [apply list_elem_of_here|]. split; [exact Ek|].
           subst key. by rewrite (in_camera_Ok _ _ _ Hid).
        -- left. by exists s.
      * right. exists s. split; [by apply list_elem_of_further|]. by split.
    + destruct (IH d) as (d' & Hd' & Hkeys).
      exists d'. split; [exact Hd'|]. intros key Hkey.
      destruct (Hkeys key Hkey) as [?|(s & Hin & Hsid & Hcam)]; [by left|].
      right. exists s. split; [by apply list_elem_of_further|]. by split.
Qed.




Lemma collect_foils_none (camera_name : string) (foils : list uda_foil)
    (d : slit_dict) (acc : list BolometerFoil) :
  Forall (fun foil => exists camera, id_camera (foil_id foil) = Ok camera)
         foils ->
  Forall (fun foil => in_camera camera_name (foil_id foil) = false) foils ->
  collect_foils camera_name foils d acc = Ok acc.
Proof.
  intros Hwf. induction Hwf as [|foil rest [camera Hid] Hwf IH];
    intros Hnone; [reflexivity|].
  apply Forall_cons in Hnone as [Hfoil Hnone].
  simpl. rewrite Hid, bind_Ok.
  rewrite (in_camera_Ok _ _ _ Hid) in Hfoil. rewrite Hfoil. by apply IH.
Qed.

(** The camera name is matched against the IDs as it is spelled: with
    well-formed IDs throughout, a name that no foil ID carries in exactly
    that spelling gives a camera without detectors, and no error. *)
Theorem camera_detectors_other_spelling (camera_name : string)
    (bolometers : bolometer_geometry) (slits : list uda_slit)
    (foils : list uda_foil) :
  except_KeyError (getkey (slits_data bolometers))
                  (getkey (data_slits_data bolometers)) = Ok slits ->
  except_KeyError (getkey (foils_data bolometers))
                  (getkey (data_foils_data bolometers)) = Ok foils ->
  Forall (fun slit => exists camera, id_camera (slit_id slit) = Ok camera)
         slits ->
  Forall (fun foil => exists camera, id_camera (foil_id foil) = Ok camera)
         foils ->
  Forall (fun foil => in_camera camera_name (foil_id foil) = false) foils ->
  camera_detectors camera_name bolometers = Ok [].
Proof.
  intros Hslits Hfoils Hwfs Hwff Hnone. unfold camera_detectors.
  rewrite Hslits, bind_Ok.
  destruct (collect_slits_well_formed camera_name slits [] Hwfs)
    as (d & -> & _).
  rewrite bind_Ok, Hfoils, bind_Ok. by apply collect_foils_none.
Qed.

(** 'SXDL - outer' passes the camera check of the loader, which compares in
    lower case, and then finds no detector among IDs that say 'Outer'. *)
Lemma camera_detectors_other_spelling_witness :
  snd (run (load_default_bolometer_config square_archive "SXDL - outer"
              (PInt 50000)))
  = Ok {| mesh_geometry_data := SXD_BOLOMETERS 0;
          camera_id := "MAST-U SXDL - outer Bolometer" |} /\
  camera_detectors "outer" sample_geometry = Ok [].
Proof.
  split; [reflexivity|].
  apply (camera_detectors_other_spelling "outer" sample_geometry
           [sample_slit "MAST-U SXDL - Outer Slit 1";
            sample_slit "MAST-U SXDL - Upper Slit 1"]
           [sample_foil "MAST-U SXDL - Outer CH1" "MAST-U SXDL - Outer Slit 1";
            sample_foil "MAST-U SXDL - Upper CH1" "MAST-U SXDL - Upper Slit 1";
            sample_foil "MAST-U SXDL - Outer CH2" "MAST-U SXDL - Outer Slit 1"]);
    try reflexivity; repeat constructor; eexists; reflexivity.
Defined.

(** ** The ID convention read back *)

Lemma split_nonempty (sep : ascii) (s : string) :
  exists part parts, split sep s = part :: parts.
Proof.
  induction s as [|c s (part & parts & IH)]; simpl; [eauto|].
  destruct (Ascii.eqb c sep); [eauto|]. rewrite IH. eauto.
Qed.

Lemma split_app_free (sep : ascii) (s1 s2 part : string) (parts : list string) :
  free_of sep s1 = true -> split sep s2 = part :: parts ->
  split sep (s1 ++ s2) = (s1 ++ part)%string :: parts.
Proof.
  intros Hfree Hsplit. induction s1 as [|c s1 IH]; simpl; [exact Hsplit|].
  simpl in Hfree. apply andb_true_iff in Hfree as [Hc Hfree].
  apply negb_true_iff in Hc. rewrite Hc, (IH Hfree). reflexivity.
Qed.

Lemma string_app_assoc (s1 s2 s3 : string) :
  ((s1 ++ s2) ++ s3)%string = (s1 ++ (s2 ++ s3))%string.
Proof. induction s1 as [|c s1 IH]; simpl; [reflexivity|]. by rewrite IH. Qed.

Lemma free_of_app (c : ascii) (s1 s2 : string) :
  free_of c (s1 ++ s2) = free_of c s1 && free_of c s2.
Proof.
  induction s1 as [|c' s1 IH]; simpl; [reflexivity|].
  by rewrite IH, andb_assoc.
Qed.

Lemma words_leading_word (word rest : string) (sp : ascii) :
  word <> EmptyString -> no_space word = true -> is_space sp = true ->
  words (word ++ String sp rest) = word :: words rest.
Proof.
  intros Hne Hword Hsp. induction word as [|c word IH]; [congruence|].
  simpl in Hword. apply andb_true_iff in Hword as [Hc Hword].
  apply negb_true_iff in Hc.
  cbn [append]. cbn [words]. rewrite Hc.
  destruct word as [|c' word].
  - cbn [append]. rewrite Hsp. cbn [words]. by rewrite Hsp.
  - cbn [append]. cbn [append] in IH.
    simpl in Hword. apply andb_true_iff in Hword as [Hc' Hword].
    apply negb_true_iff in Hc'. rewrite Hc'.
    rewrite IH; [reflexivity|discriminate|].
    simpl. by rewrite Hc', Hword.
Qed.

(** An ID written to the convention 'MAST-U <chamber> - <camera> <rest>'
    reads back as the camera: for a chamber without '-' and a camera that is
    not empty and has neither '-' nor white space, whatever follows the
    camera. In particular the camera_id that the loader gives a camera names
    that camera. *)
Theorem id_camera_of_convention (chamber camera rest : string) :
  free_of "-" chamber = true ->
  free_of "-" camera = true -> no_space camera = true ->
  camera <> EmptyString ->
  id_camera ("MAST-U " ++ chamber ++ " - " ++ camera ++ " " ++ rest)
  = Ok camera.
Proof.
  intros Hchamber Hcamera Hspace Hne.
  destruct (split_nonempty "-" (String " " rest)) as (tail & parts & Htail).
  assert (Htail' : exists tail', tail = String " " tail').
  { simpl in Htail. destruct (split "-" rest) as [|p ps];
      injection Htail as <- _; eauto. }
  destruct Htail' as (tail' & ->).
  assert (H3 : split "-" (" " ++ camera ++ " " ++ rest)
               = (" " ++ camera ++ String " " tail')%string :: parts).
  { change (" " ++ camera ++ " " ++ rest)%string
      with (String " " (camera ++ String " " rest)).
    replace (String " " (camera ++ String " " rest))
      with ((String " " camera) ++ String " " rest)%string by reflexivity.
    rewrite (split_app_free "-" (String " " camera) (String " " rest)
               (String " " tail') parts);
      [reflexivity|simpl; exact Hcamera|exact Htail]. }
  assert (H2 : split "-" ("U " ++ chamber ++ " - " ++ camera ++ " " ++ rest)
               = ("U " ++ chamber ++ " ")%string
                 :: (" " ++ camera ++ String " " tail')%string :: parts).
  { replace ("U " ++ chamber ++ " - " ++ camera ++ " " ++ rest)%string
      with (("U " ++ chamber ++ " ")
            ++ String "-" (" " ++ camera ++ " " ++ rest))%string.
    - rewrite (split_app_free "-" _ _ EmptyString
                 ((" " ++ camera ++ String " " tail')%string :: parts)).
      + f_equal. simpl. f_equal. f_equal.
        induction chamber; simpl; [reflexivity|]. f_equal.
        apply IHchamber. simpl in Hchamber.
        by apply andb_true_iff in Hchamber as [_ ?].
      + simpl. rewrite free_of_app, Hchamber. reflexivity.
      + cbn [split]. rewrite Ascii.eqb_refl, H3. reflexivity.
    - simpl. f_equal. f_equal. rewrite !string_app_assoc. reflexivity. }
  unfold id_camera.
  replace (split "-" ("MAST-U " ++ chamber ++ " - " ++ camera ++ " " ++ rest))
    with ("MAST"%string :: ("U " ++ chamber ++ " ")%string
          :: (" " ++ camera ++ String " " tail')%string :: parts).
  - cbn [getitem lookup list_lookup]. rewrite bind_Ok.
    change (" " ++ camera ++ String " " tail')%string
      with (String " " (camera ++ String " " tail')).
    cbn [words]. change (is_space " ") with true. cbv iota.
    rewrite words_leading_word by (assumption || reflexivity).
    reflexivity.
  - change ("MAST-U " ++ chamber ++ " - " ++ camera ++ " " ++ rest)%string
      with ("MAST" ++ String "-"
              ("U " ++ chamber ++ " - " ++ camera ++ " " ++ rest))%string.
    rewrite (split_app_free "-" "MAST" _ EmptyString
               (("U " ++ chamber ++ " ")%string
                :: (" " ++ camera ++ String " " tail')%string :: parts));
      [reflexivity|reflexivity|].
    cbn [split]. rewrite Ascii.eqb_refl, H2. reflexivity.
Qed.

Lemma id_camera_of_convention_witness :
  id_camera ("MAST-U " ++ "SXDL" ++ " - " ++ "Outer" ++ " " ++ "Bolometer")
  = Ok "Outer"%string.
Proof.
  apply (id_camera_of_convention "SXDL" "Outer" "Bolometer");
    try reflexivity. discriminate.
Defined.

(** ** load_vessel_world *)

Lemma outcome_bind_Done {A B : Type} (a : A) (k : A -> outcome B) :
  (Done a ≫= k) = k a.
Proof. reflexivity. Qed.

Lemma outcome_bind_Failed {A B : Type} (e : script_exn) (k : A -> outcome B) :
  (Failed e ≫= k) = Failed e.
Proof. reflexivity. Qed.

Lemma import_mesh_part_supported (path : string) (shift_p5 : bool) :
  supported_mesh path = true ->
  exists mesh, import_mesh_part path shift_p5 = Done mesh /\
               primitive_path mesh = Some path /\
               shift_justified shift_p5 mesh.
Proof.
  unfold supported_mesh, import_mesh_part. intros Hs.
  destruct (split "." (path_tail path)) as [|name [|ext [|more parts]]];
    try discriminate.
  cbn [unpack2 of_result]. rewrite outcome_bind_Done. cbn [fst snd].
  destruct (String.eqb (lower ext) "rsm") eqn:Ersm.
  - eexists. split; [reflexivity|]. split; [reflexivity|]. simpl.
    destruct (contains "P5_" path) eqn:Ec; [|exact I].
    destruct shift_p5; simpl; [|exact I]. auto.
  - simpl in Hs. rewrite Hs. eexists. by repeat split.
Qed.

Lemma import_mesh_part_unsupported (path : string) (shift_p5 : bool) :
  supported_mesh path = false ->
  exists e, import_mesh_part path shift_p5 = Failed e.
Proof.
  unfold supported_mesh, import_mesh_part. intros Hs.
  destruct (split "." (path_tail path)) as [|name [|ext [|more parts]]];
    try (eexists; reflexivity).
  cbn [unpack2 of_result]. rewrite outcome_bind_Done. cbn [fst snd].
  apply orb_false_iff in Hs as [-> ->]. eexists. reflexivity.
Qed.

Lemma import_mesh_parts_supported {M : Type} (mesh_parts : list (string * M))
    (shift_p5 : bool) (world : list primitive) :
  Forall (fun part => supported_mesh (fst part) = true) mesh_parts ->
  exists meshes,
    import_mesh_parts mesh_parts shift_p5 world = Done (world ++ meshes) /\
    map primitive_path meshes = map (fun part => Some (fst part)) mesh_parts /\
    Forall (shift_justified shift_p5) meshes.
Proof.
  intros Hall. revert world.
  induction Hall as [|[path m] rest Hpart Hall IH]; intros world.
  - exists []. rewrite app_nil_r. by repeat split.
  - simpl in Hpart.
    destruct (import_mesh_part_supported path shift_p5 Hpart)
      as (mesh & Hmesh & Hpath & Hshift).
    destruct (IH (world ++ [mesh])) as (meshes & Hrest & Hpaths & Hshifts).
    exists (mesh :: meshes). cbn [import_mesh_parts].
    rewrite Hmesh, outcome_bind_Done, Hrest, <- app_assoc.
    split; [reflexivity|]. split; [|by constructor].
    cbn [map fst]. by rewrite Hpath, Hpaths.
Qed.

Lemma import_mesh_parts_unsupported {M : Type} (mesh_parts : list (string * M))
    (shift_p5 : bool) (world : list primitive) :
  Exists (fun part => supported_mesh (fst part) = false) mesh_parts ->
  exists e, import_mesh_parts mesh_parts shift_p5 world = Failed e.
Proof.
  intros Hex. revert world.
  induction mesh_parts as [|[path m] rest IH]; intros world;
    [by apply Exists_nil in Hex|].
  cbn [import_mesh_parts].
  destruct (supported_mesh path) eqn:Hs.
  - destruct (import_mesh_part_supported path shift_p5 Hs) as (mesh & -> & _).
    rewrite outcome_bind_Done. apply IH.
    apply Exists_cons in Hex as [Hhere|Hex]; [|exact Hex].
    simpl in Hhere. congruence.
  - destruct (import_mesh_part_unsupported path shift_p5 Hs) as (e & ->).
    by exists e.
Qed.

(** load_vessel_world builds the world exactly when the file name of every
    mesh part has one '.', followed by rsm or obj in any case: the world
    then holds one mesh per part, in order and under its path, followed by
    the blocking cylinder of radius 0.1 and height 6 placed at z = -3; a mesh
    is shifted only when shift_p5 is set, its path contains 'P5_' and it is
    an RSM mesh. One part that is not supported makes the whole load raise. *)
Theorem load_vessel_world_outcome {M : Type} (mesh_parts : list (string * M))
    (shift_p5 : bool) :
  (Forall (fun part => supported_mesh (fst part) = true) mesh_parts ->
   exists meshes,
     load_vessel_world mesh_parts shift_p5
     = Done (meshes ++ [Cylinder (1 # 10) 6 (- 6 / 2) "Blocking Cylinder"]) /\
     map primitive_path meshes = map (fun part => Some (fst part)) mesh_parts /\
     Forall (shift_justified shift_p5) meshes) /\
  (Exists (fun part => supported_mesh (fst part) = false) mesh_parts ->
   exists e, load_vessel_world mesh_parts shift_p5 = Failed e).
Proof.
  unfold load_vessel_world. split.
  - intros Hall.
    destruct (import_mesh_parts_supported mesh_parts shift_p5 [] Hall)
      as (meshes & -> & Hpaths & Hshifts).
    exists meshes. by repeat split.
  - intros Hex.
    destruct (import_mesh_parts_unsupported mesh_parts shift_p5 [] Hex)
      as (e & ->).
    by exists e.
Qed.

Lemma load_vessel_world_outcome_witness :
  (exists meshes,
     load_vessel_world [("/cad/P5_coil.rsm", tt); ("/cad/P5_case.OBJ", tt)]%string
                       true
     = Done (meshes ++ [Cylinder (1 # 10) 6 (- 6 / 2) "Blocking Cylinder"]) /\
     map primitive_path meshes
     = [Some "/cad/P5_coil.rsm"; Some "/cad/P5_case.OBJ"]%string /\
     Forall (shift_justified true) meshes) /\
  (exists e,
     load_vessel_world [("/cad/wall.v2.rsm", tt)]%string false = Failed e).
Proof.
  split.
  - apply (proj1 (load_vessel_world_outcome
                    [("/cad/P5_coil.rsm", tt); ("/cad/P5_case.OBJ", tt)]%string
                    true)).
    repeat constructor.
  - apply (proj2 (load_vessel_world_outcome [("/cad/wall.v2.rsm", tt)]%string
                    false)).
    by constructor.
Defined.

(** ** From the camera argument to the bolometer identifier and the file *)

Lemma string_in_true (s : string) (choices : list string) :
  string_in s choices = true -> s ∈ choices.
Proof.
  unfold string_in. induction choices as [|c choices IH]; simpl;
    [discriminate|].
  destruct (String.eqb s c) eqn:E.
  - apply String.eqb_eq in E. subst. intros _. apply list_elem_of_here.
  - intros H. apply list_elem_of_further. by apply IH.
Qed.

Ltac in_list :=
  repeat first [apply list_elem_of_here | apply list_elem_of_further].

Ltac each_camera H :=
  repeat (apply elem_of_cons in H as [->|H]); [..|by apply elem_of_nil in H].

(** The cameras that main accepts. *)
Lemma main_accepts (argv : list string) (call : sensitivities_call) :
  main argv = Ok call ->
  exists camera,
    argv !! 1%nat = Some camera /\
    camera ∈ ["Outer"; "Upper"; "Poloidal"; "Tangential"; "PoloidalHighRes";
              "TangentialHighRes"; "Poloidal-MAST"]%string /\
    main [EmptyString; camera] = Ok call.
Proof.
  unfold main. rewrite !getitem_lookup.
  destruct (argv !! 1%nat) as [camera|]; [|discriminate].
  cbn [lookup list_lookup]. rewrite !bind_Ok. intros H.
  exists camera. split; [reflexivity|]. split; [|exact H].
  destruct (string_in camera ["Outer"; "Upper"]%string) eqn:E1.
  { apply string_in_true in E1. each_camera E1; in_list. }
  destruct (string_in camera ["Poloidal"; "Tangential"]%string) eqn:E2.
  { apply string_in_true in E2. each_camera E2; in_list. }
  destruct (string_in camera ["PoloidalHighRes"; "TangentialHighRes"]%string)
    eqn:E3.
  { apply string_in_true in E3. each_camera E3; in_list. }
  destruct (String.eqb camera "Poloidal-MAST") eqn:E4; [|discriminate].
  apply String.eqb_eq in E4. subst camera. in_list.
Qed.

(** Every call that main makes goes through: the grid it passes is one that
    calculate_and_save_sensitivities knows, both for the names and for the
    ray-transfer cylinder, and the identifier built from the camera passes
    the chamber and camera checks of load_default_bolometer_config on every
    archive that answers. *)
Theorem main_call_is_accepted (argv : list string) (call : sensitivities_call) :
  main argv = Ok call ->
  exists bolo_name file_name cylinder,
    sensitivities_names (call_grid call) (call_camera call)
    = Done (bolo_name, file_name) /\
    ray_transfer_grid (call_grid call) = Done cylinder /\
    forall ar : Archive,
      connect ar = Ok tt ->
      (forall path, geometry ar path (PInt 50000) = Ok tt) ->
      exists config,
        snd (run (load_default_bolometer_config ar bolo_name (PInt 50000)))
        = Ok config.
Proof.
  intros Hmain. destruct (main_accepts _ _ Hmain) as (camera & _ & Hin & Hcall).
  clear Hmain. each_camera Hin; injection Hcall as <-;
    (eexists _, _, _; split; [reflexivity|]; split; [reflexivity|];
     intros ar Hconnect Hgeometry;
     unfold load_default_bolometer_config, run, mbind, io_bind, lift,
       pyuda_Client, client_geometry, mret, io_ret;
     cbn; rewrite Hconnect, Hgeometry; cbn; eexists; reflexivity).
Qed.

Lemma main_call_is_accepted_witness :
  exists bolo_name file_name cylinder,
    sensitivities_names "core" "Poloidal-MAST" = Done (bolo_name, file_name) /\
    ray_transfer_grid "core" = Done cylinder /\
    forall ar : Archive,
      connect ar = Ok tt ->
      (forall path, geometry ar path (PInt 50000) = Ok tt) ->
      exists config,
        snd (run (load_default_bolometer_config ar bolo_name (PInt 50000)))
        = Ok config.
Proof.
  exact (main_call_is_accepted ["rtm_sensitivities.py"; "Poloidal-MAST"]%string
           _ eq_refl).
Defined.

(** No two cameras that main accepts write the same file. *)
Theorem main_output_files_distinct (argv argv' : list string)
    (call call' : sensitivities_call) (bolo_name bolo_name' file_name : string) :
  main argv = Ok call -> main argv' = Ok call' ->
  sensitivities_names (call_grid call) (call_camera call)
  = Done (bolo_name, file_name) ->
  sensitivities_names (call_grid call') (call_camera call')
  = Done (bolo_name', file_name) ->
  argv !! 1%nat = argv' !! 1%nat.
Proof.
  intros Hmain Hmain'.
  destruct (main_accepts _ _ Hmain) as (camera & -> & Hin & Hcall).
  destruct (main_accepts _ _ Hmain') as (camera' & -> & Hin' & Hcall').
  clear Hmain Hmain'.
  each_camera Hin; injection Hcall as <-;
    each_camera Hin'; injection Hcall' as <-;
    intros H H'; try reflexivity;
    vm_compute in H, H'; congruence.
Qed.

Lemma main_output_files_distinct_witness :
  ["rtm_sensitivities.py"; "Upper"]%string !! 1%nat
  = ["-"; "Upper"]%string !! 1%nat.
Proof.
  exact (main_output_files_distinct
           ["rtm_sensitivities.py"; "Upper"]%string ["-"; "Upper"]%string
           _ _ _ _ _ eq_refl eq_refl eq_refl eq_refl).
Defined.

(** ** The grid file: voxels and extras *)

Lemma pickle_getitem_remove (d : pickle_dict) (removed key : string) :
  pickle_getitem (pickle_remove d removed) key
  = if String.eqb key removed then Raise KeyError else pickle_getitem d key.
Proof.
  induction d as [|[k v] d IH]; simpl; [by destruct (String.eqb key removed)|].
  destruct (String.eqb k removed) eqn:Ek.
  - rewrite IH. apply String.eqb_eq in Ek. subst k.
    destruct (String.eqb key removed) eqn:E; [reflexivity|].
    rewrite String.eqb_sym, E. reflexivity.
  - simpl. rewrite IH. destruct (String.eqb key removed) eqn:E; [|reflexivity].
    apply String.eqb_eq in E. subst key. by rewrite Ek.
Qed.

(** load_grid_extras returns the mapping of the file without its 'voxels'
    entry and with every other entry as in the file; it raises KeyError when
    the file has no 'voxels' entry, and what open or pickle.load raise when
    the file cannot be read. *)
Theorem load_grid_extras_outcome (fs : string -> outcome pickle_dict)
    (directory system : string) (grid_file : option string) :
  (forall e, fs (grid_path directory system grid_file) = Failed e ->
     load_grid_extras fs directory system grid_file = Failed e) /\
  (forall grid_data,
     fs (grid_path directory system grid_file) = Done grid_data ->
     pickle_getitem grid_data "voxels" = Raise KeyError ->
     load_grid_extras fs directory system grid_file = Failed (Exn KeyError)) /\
  (forall grid_data voxels,
     fs (grid_path directory system grid_file) = Done grid_data ->
     pickle_getitem grid_data "voxels" = Ok voxels ->
     exists extras,
       load_grid_extras fs directory system grid_file = Done extras /\
       forall key,
         pickle_getitem extras key
         = if String.eqb key "voxels" then Raise KeyError
           else pickle_getitem grid_data key).
Proof.
  unfold load_grid_extras, pickle_pop. cbv zeta. repeat split.
  - by intros e ->.
  - intros grid_data Hfs Hv. by rewrite Hfs, outcome_bind_Done, Hv.
  - intros grid_data voxels Hfs Hv. rewrite Hfs, outcome_bind_Done, Hv.
    eexists. split; [reflexivity|].
    intros key. apply pickle_getitem_remove.
Qed.

Lemma load_grid_extras_outcome_witness :
  exists extras,
    load_grid_extras sample_fs "/grids" "core" None = Done extras /\
    forall key,
      pickle_getitem extras key
      = if String.eqb key "voxels" then Raise KeyError
        else pickle_getitem sample_pickle key.
Proof.
  exact (proj2 (proj2 (load_grid_extras_outcome sample_fs "/grids" "core" None))
           sample_pickle _ eq_refl eq_refl).
Defined.

Lemma result_map_Forall2 {A B : Type} (f : A -> result B)
    (R : A -> B -> Prop) (l : list A) (out : list B) :
  (forall a b, f a = Ok b -> R a b) ->
  result_map f l = Ok out -> Forall2 R l out.
Proof.
  intros Hf. revert out. induction l as [|a l IH]; intros out; simpl.
  - intros [= <-]. constructor.
  - destruct (f a) as [b|] eqn:Hb; [rewrite bind_Ok|discriminate].
    destruct (result_map f l) as [bs|]; [rewrite bind_Ok|discriminate].
    intros [= <-]. constructor; auto.
Qed.

Lemma point2d_of_vertex (vertex : list Q) (p : Point2D) :
  point2d_of vertex = Ok p -> point_of_vertex vertex p.
Proof.
  unfold point2d_of, point_of_vertex.
  destruct vertex as [|x [|y [|z vertex]]]; try discriminate.
  by intros [= <-].
Qed.

(** Whenever load_standard_voxel_grid returns, the file holds a list of
    voxels under 'voxels', and the grid has one polygon for each voxel of
    the list (of its slice from start to stop, when a range is given), in
    order, with one point for each vertex, made of the vertex's two
    coordinates. *)
Theorem load_standard_voxel_grid_voxels (fs : string -> outcome pickle_dict)
    (directory system : string) (voxel_range : option (nat * nat))
    (grid_file : option string) (grid : list (list Point2D)) :
  load_standard_voxel_grid fs directory system voxel_range grid_file
  = Done grid ->
  exists grid_data voxels,
    fs (grid_path directory system grid_file) = Done grid_data /\
    pickle_getitem grid_data "voxels" = Ok (PVoxels voxels) /\
    Forall2 (Forall2 point_of_vertex)
      (match voxel_range with
       | Some (start, stop) => drop start (take stop voxels)
       | None => voxels
       end) grid.
Proof.
  unfold load_standard_voxel_grid. cbv zeta. intros H.
  destruct (fs (grid_path directory system grid_file)) as [grid_data|];
    [rewrite outcome_bind_Done in H|discriminate].
  destruct (pickle_getitem grid_data "voxels") as [[voxels|]|] eqn:Hv;
    try discriminate.
  cbn [of_result] in H. rewrite !outcome_bind_Done in H.
  exists grid_data, voxels. split; [reflexivity|]. split; [exact Hv|].
  destruct (result_map _ _) as [out|] eqn:Hout; [|discriminate].
  injection H as <-.
  assert (Hsel : (match voxel_range with
                  | Some (start, stop) => drop start (take stop voxels)
                  | None => voxels
                  end)
                 = match voxel_range with
                   | Some range => slice_range voxels range
                   | None => voxels
                   end) by (by destruct voxel_range as [[start stop]|]).
  rewrite Hsel.
  eapply result_map_Forall2; [|exact Hout].
  intros voxel polygon. apply result_map_Forall2, point2d_of_vertex.
Qed.

Lemma load_standard_voxel_grid_witness :
  exists grid grid_data voxels,
    load_standard_voxel_grid sample_fs "/grids/" "core" (Some (1, 5)%nat) None
    = Done grid /\
    length grid = 1%nat /\
    sample_fs (grid_path "/grids/" "core" None) = Done grid_data /\
    pickle_getitem grid_data "voxels" = Ok (PVoxels voxels) /\
    Forall2 (Forall2 point_of_vertex) (drop 1 (take 5 voxels)) grid.
Proof.
  eexists.
  match goal with
  | |- exists d v, ?load = Done ?g /\ _ =>
      assert (H : load = Done g) by (vm_compute; reflexivity);
      destruct (load_standard_voxel_grid_voxels _ _ _ _ _ _ H)
        as (d & v & Hfs & Hv & Hgrid);
      exists d, v; split; [exact H|]; split; [reflexivity|];
      split; [exact Hfs|]; split; [exact Hv|exact Hgrid]
  end.
Defined.
